(** * Atlas auto-scale-down monitor: a shallow embedding of
    [monitor_and_scale_down.py] and the properties of its decision engine.

    - The cluster document the Atlas API returns is loosely typed JSON and
      is modelled as such, with Python's truthiness, [.get], [in], [len],
      indexing and [int] on it; a Python exception is an explicit result.
    - A float is read as the rational it denotes and arithmetic on floats
      is exact (the code truncates, compares and scales by constants).
    - In-place mutation through the reference [_get_region_config] returns
      is a functional update at the place the reference points to.
    - The config file is state, taken readable and well formed; the network
      ([get_cluster_details], the PATCH, and the process and metrics
      lookups, which are not modelled further) and the clock are oracles
      indexed by the number of requests and clock readings made so far. *)

From Stdlib Require Import ZArith QArith String Ascii List Bool Lia.
From stdpp Require Import base option list strings gmap pretty.

Local Open Scope Z_scope.

(** ** Python exceptions as results *)

Inductive pyexn : Type :=
| ValueError | TypeError | AttributeError | KeyError | IndexError.

Inductive res (A : Type) : Type :=
| Ret (a : A)
| Raise (e : pyexn).
Arguments Ret {A} a.
Arguments Raise {A} e.

Definition res_bind {A B : Type} (f : A → res B) (m : res A) : res B :=
  match m with
  | Ret a => f a
  | Raise e => Raise e
  end.

#[global] Instance res_mbind : MBind res := @res_bind.
#[global] Instance res_mret : MRet res := @Ret.
#[global] Instance res_fmap : FMap res :=
  λ A B f m, match m with Ret a => Ret (f a) | Raise e => Raise e end.

(** [try: m except Exception: d] *)
Definition try_except {A : Type} (m : res A) (d : A) : A :=
  match m with
  | Ret a => a
  | Raise _ => d
  end.

(** [try: m except (ValueError, TypeError): d]; anything else propagates. *)
Definition try_except_value_type {A : Type} (m : res A) (d : A) : res A :=
  match m with
  | Ret a => Ret a
  | Raise ValueError | Raise TypeError => Ret d
  | Raise e => Raise e
  end.

Definition of_option {A : Type} (e : pyexn) (o : option A) : res A :=
  match o with
  | Some a => Ret a
  | None => Raise e
  end.

(** ** JSON documents, as [response.json()] and [json.load] produce them

    A JSON number is a Python [int] or a finite [float]; every finite float
    is a rational, and the code only truncates, compares and scales them. A
    JSON object is a Python [dict], whose iteration order is insertion
    order: an association list. Python's [None] is [JNull]. *)

#[warnings="-register-all"]
Inductive json : Type :=
| JNull
| JBool (b : bool)
| JInt (n : Z)
| JFloat (q : Q)
| JStr (s : string)
| JArr (l : list json)
| JObj (kvs : list (string * json)).

Abbreviation dict := (list (string * json)).

Module Dict.

(** [d.get(k)] as an option, first binding wins *)
Fixpoint get (k : string) (d : dict) : option json :=
  match d with
  | [] => None
  | (k', v) :: d' => if String.eqb k k' then Some v else get k d'
  end.

(** [k in d] *)
Definition mem (k : string) (d : dict) : bool :=
  match get k d with Some _ => true | None => false end.

(** [d[k] = v]: an existing key keeps its position, a new one goes last *)
Fixpoint set (k : string) (v : json) (d : dict) : dict :=
  match d with
  | [] => [(k, v)]
  | (k', v') :: d' =>
      if String.eqb k k' then (k', v) :: d' else (k', v') :: set k v d'
  end.

(** [d.pop(k, None)], the popped value dropped *)
Fixpoint pop (k : string) (d : dict) : dict :=
  match d with
  | [] => []
  | (k', v') :: d' =>
      if String.eqb k k' then pop k d' else (k', v') :: pop k d'
  end.

End Dict.

(** ** The Python operations the script applies to JSON values *)

(** truthiness: [if x], [not x] *)
Definition py_truthy (v : json) : bool :=
  match v with
  | JNull => false
  | JBool b => b
  | JInt n => negb (n =? 0)
  | JFloat q => negb (Qnum q =? 0)
  | JStr s => negb (String.eqb s "")
  | JArr l => match l with [] => false | _ => true end
  | JObj d => match d with [] => false | _ => true end
  end.

(** [o.get(k, dflt)]: only a dict has [.get] *)
Definition py_get (o : json) (k : string) (dflt : json) : res json :=
  match o with
  | JObj d => Ret (default dflt (Dict.get k d))
  | _ => Raise AttributeError
  end.

(** [len(o)] *)
Definition py_len (o : json) : res Z :=
  match o with
  | JStr s => Ret (Z.of_nat (String.length s))
  | JArr l => Ret (Z.of_nat (length l))
  | JObj d => Ret (Z.of_nat (length d))
  | _ => Raise TypeError
  end.

(** [o[i]] for an integer [i] with [0 <= i < len(o)] *)
Definition py_index (o : json) (i : Z) : res json :=
  match o with
  | JArr l => of_option IndexError (l !! Z.to_nat i)
  | JStr s => of_option IndexError
                ((λ c, JStr (String c EmptyString)) <$> String.get (Z.to_nat i) s)
  | JObj _ => Raise KeyError
  | _ => Raise TypeError
  end.

Fixpoint is_substring (p s : string) : bool :=
  String.prefix p s
  || match s with
     | EmptyString => false
     | String _ s' => is_substring p s'
     end.

Definition is_str (k : string) (v : json) : bool :=
  match v with JStr s => String.eqb k s | _ => false end.

(** [k in o] for a string [k] *)
Definition py_contains (k : string) (o : json) : res bool :=
  match o with
  | JObj d => Ret (Dict.mem k d)
  | JArr l => Ret (existsb (is_str k) l)
  | JStr s => Ret (is_substring k s)
  | _ => Raise TypeError
  end.

(** ** [int(...)] *)

Definition is_space (c : ascii) : bool :=
  let n := nat_of_ascii c in
  ((9 <=? n)%nat && (n <=? 13)%nat) || ((28 <=? n)%nat && (n <=? 32)%nat).

Definition digit_of (c : ascii) : option Z :=
  let n := nat_of_ascii c in
  if ((48 <=? n)%nat && (n <=? 57)%nat) then Some (Z.of_nat n - 48) else None.

Fixpoint lstrip (cs : list ascii) : list ascii :=
  match cs with
  | c :: cs' => if is_space c then lstrip cs' else cs
  | [] => []
  end.

Definition strip (cs : list ascii) : list ascii :=
  rev (lstrip (rev (lstrip cs))).

(** decimal digits, single underscores allowed only between two digits *)
Fixpoint parse_digits (acc : Z) (after_digit : bool) (cs : list ascii) : option Z :=
  match cs with
  | [] => if after_digit then Some acc else None
  | c :: cs' =>
      match digit_of c with
      | Some d => parse_digits (10 * acc + d) true cs'
      | None =>
          if Ascii.eqb c "_" && after_digit then parse_digits acc false cs'
          else None
      end
  end.

(** [int(s)] for a string, on its ASCII reading and without a limit on the
    number of digits: surrounding white space, an optional sign, decimal
    digits; [None] is [ValueError]. *)
Definition py_int_str (s : string) : option Z :=
  match strip (list_ascii_of_string s) with
  | "+"%char :: cs => parse_digits 0 false cs
  | "-"%char :: cs => Z.opp <$> parse_digits 0 false cs
  | cs => parse_digits 0 false cs
  end.

(** [int(v)]: truncation toward zero for a float *)
Definition py_int (v : json) : res Z :=
  match v with
  | JInt n => Ret n
  | JFloat q => Ret (Z.quot (Qnum q) (Z.pos (Qden q)))
  | JBool b => Ret (if b then 1 else 0)
  | JStr s => of_option ValueError (py_int_str s)
  | _ => Raise TypeError
  end.

(** ** Tier arithmetic *)

Definition ascii_upper (c : ascii) : ascii :=
  let n := nat_of_ascii c in
  if ((97 <=? n)%nat && (n <=? 122)%nat) then ascii_of_nat (n - 32) else c.

Fixpoint str_upper (s : string) : string :=
  match s with
  | EmptyString => EmptyString
  | String c s' => String (ascii_upper c) (str_upper s')
  end.

(** [s[1:]] *)
Definition str_tail (s : string) : string :=
  match s with
  | EmptyString => EmptyString
  | String _ s' => s'
  end.

(** [tier_str.upper().startswith(("M", "R"))] *)
Definition has_class_prefix (s : string) : bool :=
  String.prefix "M" (str_upper s) || String.prefix "R" (str_upper s).

Definition _tier_to_number (tier_str : json) : res Z :=
  match tier_str with
  | JStr s =>
      if negb (py_truthy tier_str) then Ret 0
      else
        try_except_value_type
          (if has_class_prefix s
           then py_int (JStr (str_tail s))
           else py_int (JStr s))
          0
  | _ => Ret 0
  end.

(** ** Locating a shard's region config *)

(** Where the object that [_get_region_config] hands back lives inside the
    shard spec: assignments through the returned reference land there. *)
Inductive rc_slot : Type :=
| SlotFlat      (* [spec["regionConfigs"][0]] *)
| SlotMapped    (* the first value of [spec["regionsConfig"]] *)
| SlotFresh.    (* a temporary, or [None] *)

(** [list(regions_obj.values())[0]] for a truthy [regions_obj] *)
Definition first_value (o : json) : res json :=
  match o with
  | JObj ((_, v) :: _) => Ret v
  | JObj [] => Raise IndexError
  | _ => Raise AttributeError
  end.

(** the region part of [_get_region_config], for one shard spec *)
Definition locate_region_config (spec : json) : res (rc_slot * json) :=
  region_configs ← py_get spec "regionConfigs" (JArr []);
  regions_config ← py_get spec "regionsConfig" JNull;
  if negb (py_truthy region_configs) && py_truthy regions_config then
    rc ← first_value regions_config;
    Ret (SlotMapped, rc)
  else if py_truthy region_configs then
    rc ← py_index region_configs 0;
    Ret (match region_configs with JArr _ => SlotFlat | _ => SlotFresh end, rc)
  else Ret (SlotFresh, JNull).

Definition _get_region_config_at (cluster_info : json) (shard_index : Z)
  : res (rc_slot * json) :=
  replication_specs ← py_get cluster_info "replicationSpecs" (JArr []);
  if shard_index <? 0 then Ret (SlotFresh, JNull)
  else
    n ← py_len replication_specs;
    if n <=? shard_index then Ret (SlotFresh, JNull)
    else
      spec ← py_index replication_specs shard_index;
      locate_region_config spec.

Definition _get_region_config (cluster_info : json) (shard_index : Z) : res json :=
  snd <$> _get_region_config_at cluster_info shard_index.

(** ** Tier state and autoscale bounds *)

Definition check_shard_tier (cluster_info : json) (shard_index : Z) : res json :=
  region_config ← _get_region_config cluster_info shard_index;
  if py_truthy region_config then
    effective_specs ← py_get region_config "effectiveElectableSpecs" (JObj []);
    py_get effective_specs "instanceSize" JNull
  else Ret JNull.

Inductive limit_reason : Type :=
| NoRegionConfig (shard_index : Z)
| NoComputeConfig (shard_index : Z)
| MinMaxNotConfigured (shard_index : Z)
| BaseOutsideLimits (base_tier : string) (lo hi : json)
| ScaleUpOutsideLimits (scale_up_tier : string) (lo hi : json).

Definition check_autoscale_limits (cluster_info : json) (shard_index : Z)
    (base_tier scale_up_tier : string) : res (bool * list limit_reason) :=
  region_config ← _get_region_config cluster_info shard_index;
  if negb (py_truthy region_config) then Ret (false, [NoRegionConfig shard_index])
  else
    auto_scaling ← py_get region_config "autoScaling" (JObj []);
    compute_cfg ← py_get auto_scaling "compute" (JObj []);
    if negb (py_truthy compute_cfg) then Ret (false, [NoComputeConfig shard_index])
    else
      min_instance_size ← py_get compute_cfg "minInstanceSize" (JStr "");
      max_instance_size ← py_get compute_cfg "maxInstanceSize" (JStr "");
      if negb (py_truthy min_instance_size) || negb (py_truthy max_instance_size)
      then Ret (false, [MinMaxNotConfigured shard_index])
      else
        base_num ← _tier_to_number (JStr base_tier);
        scale_up_num ← _tier_to_number (JStr scale_up_tier);
        min_num ← _tier_to_number min_instance_size;
        max_num ← _tier_to_number max_instance_size;
        let reasons := [] in
        let reasons :=
          if (base_num <? min_num) || (max_num <? base_num)
          then reasons ++ [BaseOutsideLimits base_tier min_instance_size
                             max_instance_size]
          else reasons in
        let reasons :=
          if (scale_up_num <? min_num) || (max_num <? scale_up_num)
          then reasons ++ [ScaleUpOutsideLimits scale_up_tier min_instance_size
                             max_instance_size]
          else reasons in
        Ret (match reasons with [] => true | _ => false end, reasons).

(** ** Staleness and dwell window

    An instant is a count of microseconds since the epoch; a [timedelta] is
    a count of microseconds. [datetime.fromisoformat] is the library's
    parser: [None] stands for its [ValueError]. *)

Record datetime : Type := {
  dt_wall : Z;              (* the wall-clock reading *)
  dt_offset : option Z      (* [utcoffset()], [None] for a naive value *)
}.

Definition dt_instant (dt : datetime) : Z :=
  dt_wall dt - default 0 (dt_offset dt).

Definition NEW_SCALE_UP_THRESHOLD_HOURS : Z := 24.
Definition DEFAULT_MIN_HOURS_SINCE_UPDATE : Z := 4.

(** [s.endswith('Z')] *)
Fixpoint ends_with_Z (s : string) : bool :=
  match s with
  | EmptyString => false
  | String c EmptyString => Ascii.eqb c "Z"
  | String _ s' => ends_with_Z s'
  end.

(** [s.replace('Z', '+00:00')] *)
Fixpoint replace_Z (s : string) : string :=
  match s with
  | EmptyString => EmptyString
  | String c s' =>
      if Ascii.eqb c "Z" then "+00:00" +:+ replace_Z s'
      else String c (replace_Z s')
  end.

(** [timedelta.total_seconds() / 3600] *)
Definition hours_of (time_diff : Z) : Q :=
  (Qmake time_diff 1000000 / 3600)%Q.

Section Clock.

Variable fromisoformat : string → option datetime.

Definition _parse_timestamp (timestamp_str : json) : option datetime :=
  if negb (py_truthy timestamp_str) then None
  else
    match timestamp_str with
    | JStr s =>
        let parsed :=
          if ends_with_Z s then fromisoformat (replace_Z s)
          else fromisoformat s in
        match parsed with
        | Some dt =>
            Some (match dt_offset dt with
                  | None => {| dt_wall := dt_wall dt; dt_offset := Some 0 |}
                  | Some _ => dt
                  end)
        | None => None
        end
    | _ => None
    end.

(** [now] is the instant [datetime.now(timezone.utc)] reads *)
Definition check_time_since_update (now : Z) (last_tier_update : json)
    (min_hours : Z) : bool * option Z :=
  if negb (py_truthy last_tier_update) then (true, None)
  else
    match _parse_timestamp last_tier_update with
    | None => (true, None)
    | Some last_update =>
        let time_diff := now - dt_instant last_update in
        let hours_passed := hours_of time_diff in
        (Qle_bool (inject_Z min_hours) hours_passed, Some time_diff)
    end.

Definition is_timestamp_very_old (now : Z) (last_tier_update : json)
    (threshold_hours : Z) : bool * option Z :=
  if negb (py_truthy last_tier_update) then (true, None)
  else
    match _parse_timestamp last_tier_update with
    | None => (true, None)
    | Some last_update =>
        let time_diff := now - dt_instant last_update in
        let hours_passed := hours_of time_diff in
        (Qle_bool (inject_Z threshold_hours) hours_passed, Some time_diff)
    end.

End Clock.

(** ** Safety thresholds *)

Definition CPU_THRESHOLD : Q := 35.
Definition MEMORY_THRESHOLD_PERCENT : Q := Qmake 6 10.
Definition IOPS_THRESHOLD_PERCENT : Q := Qmake 6 10.
Definition CONNECTIONS_THRESHOLD_PERCENT : Q := Qmake 5 10.

(** a row of the tier table, as [load_tier_specs] builds it *)
Record TierSpec : Type := {
  ram : Q;
  connection : Z;
  iops : Z
}.

(** the summary [get_cluster_metrics] fills in, starting from
    [_default_metrics]; every key is always present *)
Record Metrics : Type := {
  cpu_max : Q; cpu_avg : Q; cpu_std : Q;
  memory_max_gb : Q; memory_avg_gb : Q;
  iops_max : Q; iops_avg : Q;
  connections_max : Q; connections_avg : Q
}.

Definition _default_metrics : Metrics := {|
  cpu_max := 0; cpu_avg := 0; cpu_std := 0;
  memory_max_gb := 0; memory_avg_gb := 0;
  iops_max := 0; iops_avg := 0;
  connections_max := 0; connections_avg := 0
|}.

(** the reason strings, by the check that emits them and the values they
    print *)
Inductive reason : Type :=
| MissingTierSpecs (base_tier current_tier : string)
| CpuAvgHigh (cpu_avg : Q)
| MemoryAvgHigh (memory_avg_gb : Q) (current_tier : string) (memory_threshold : Q)
| NoMemoryThreshold (current_tier : string)
| IopsAvgHigh (iops_avg : Q) (current_tier : string) (iops_threshold : Q)
| ConnectionsAvgHigh (connections_avg : Q) (base_tier : string)
    (connections_threshold : Q).

Definition check_safety_conditions (base_tier current_tier : string)
    (metrics : Metrics) (tier_specs : gmap string TierSpec) : bool * list reason :=
  let reasons := [] in
  match tier_specs !! base_tier, tier_specs !! current_tier with
  | Some base_spec, Some current_spec =>
      let reasons :=
        if Qle_bool CPU_THRESHOLD (cpu_avg metrics)
        then reasons ++ [CpuAvgHigh (cpu_avg metrics)]
        else reasons in
      let current_ram := ram current_spec in
      let reasons :=
        if negb (Qle_bool current_ram 0) then
          let memory_threshold := (current_ram * MEMORY_THRESHOLD_PERCENT)%Q in
          if Qle_bool memory_threshold (memory_avg_gb metrics)
          then reasons ++ [MemoryAvgHigh (memory_avg_gb metrics) current_tier
                             memory_threshold]
          else reasons
        else reasons ++ [NoMemoryThreshold current_tier] in
      let current_iops := iops current_spec in
      let iops_threshold := (inject_Z current_iops * IOPS_THRESHOLD_PERCENT)%Q in
      let reasons :=
        if Qle_bool iops_threshold (iops_avg metrics)
        then reasons ++ [IopsAvgHigh (iops_avg metrics) current_tier iops_threshold]
        else reasons in
      let base_connection := connection base_spec in
      let connections_threshold :=
        (inject_Z base_connection * CONNECTIONS_THRESHOLD_PERCENT)%Q in
      let reasons :=
        if Qle_bool connections_threshold (connections_avg metrics)
        then reasons ++ [ConnectionsAvgHigh (connections_avg metrics) base_tier
                           connections_threshold]
        else reasons in
      (match reasons with [] => true | _ => false end, reasons)
  | _, _ => (false, reasons ++ [MissingTierSpecs base_tier current_tier])
  end.

(** ** Building the update payload *)

Definition DEFAULT_NODE_COUNT : Z := 3.

Definition read_only_fields : list string :=
  [ "id"; "mongoURI"; "connectionStrings"; "stateName"; "createDate"; "updateDate";
    "links"; "groupId"; "replicationSpec"; "mongoURIUpdated"; "mongoURIWithOptions";
    "srvAddress"; "mongoDBVersion"; "numShards"; "name"; "mongoDBMajorVersion";
    "providerBackupEnabled"; "pitEnabled"; "backupEnabled"; "clusterType";
    "replicationFactor"; "rootCertType"; "terminationProtectionEnabled";
    "versionReleaseSystem"; "diskWarmingMode"; "encryptionAtRestProvider";
    "globalClusterSelfManagedSharding"; "labels"; "biConnector";
    "customOpensslCipherConfigTls13"; "minimumEnabledTlsProtocol";
    "tlsCipherConfigMode" ].

Fixpoint res_mapM {A B : Type} (f : A → res B) (l : list A) : res (list B) :=
  match l with
  | [] => Ret []
  | x :: l' => y ← f x; ys ← res_mapM f l'; Ret (y :: ys)
  end.

Fixpoint res_foldM {A B : Type} (f : B → A → res B) (b : B) (l : list A) : res B :=
  match l with
  | [] => Ret b
  | x :: l' => b' ← f b x; res_foldM f b' l'
  end.

(** [for x in o] *)
Definition py_iter (o : json) : res (list json) :=
  match o with
  | JArr l => Ret l
  | JStr s => Ret ((λ c, JStr (String c EmptyString)) <$> list_ascii_of_string s)
  | JObj d => Ret ((λ kv, JStr kv.1) <$> d)
  | _ => Raise TypeError
  end.

(** [o.items()] *)
Definition py_items (o : json) : res dict :=
  match o with
  | JObj d => Ret d
  | _ => Raise AttributeError
  end.

Definition copied_region_keys : list string :=
  [ "electableSpecs"; "analyticsSpecs"; "readOnlySpecs"; "autoScaling" ].

(** one [(region_name, region_data)] item of a [regionsConfig] mapping,
    flattened *)
Definition normalize_region (provider_name : json) (item : string * json)
  : res json :=
  let '(region_name, region_data) := item in
  priority ← py_get region_data "priority" (JInt 7);
  region_items ← py_items region_data;
  let region_config :=
    [ ("priority", priority); ("regionName", JStr region_name);
      ("providerName", provider_name) ] in
  Ret (JObj (foldl (λ region_config key,
                      match Dict.get key region_items with
                      | Some v => Dict.set key v region_config
                      | None => region_config
                      end) region_config copied_region_keys)).

(** the body of the loop over [replication_specs] *)
Definition normalize_spec (provider_name : json) (spec : json) : res json :=
  match spec with
  | JObj d =>
      let d := Dict.pop "id" d in
      let d := Dict.pop "numShards" d in
      let d := Dict.pop "zoneName" d in
      if Dict.mem "regionsConfig" d && negb (Dict.mem "regionConfigs" d) then
        let regions_config_obj := default JNull (Dict.get "regionsConfig" d) in
        let d := Dict.pop "regionsConfig" d in
        items ← py_items regions_config_obj;
        region_configs ← res_mapM (normalize_region provider_name) items;
        Ret (JObj (Dict.set "regionConfigs" (JArr region_configs) d))
      else Ret (JObj d)
  | JArr _ => Raise TypeError
  | _ => Raise AttributeError
  end.

(** the loop itself: the specs are mutated in place, so a list ends up
    holding the normalized specs; the elements of anything else that can be
    iterated are strings, on which [.pop] raises *)
Definition normalize_specs (provider_name : json) (replication_specs : json)
  : res json :=
  specs ← py_iter replication_specs;
  specs' ← res_mapM (normalize_spec provider_name) specs;
  Ret (match replication_specs with
       | JArr _ => JArr specs'
       | _ => replication_specs
       end).

(** lines 455-460: the assignments to [region_config["electableSpecs"]] *)
Definition apply_tier_change (target_tier : string) (current_disk_size : json)
    (region_config : json) : res json :=
  match region_config with
  | JObj rc =>
      match Dict.get "electableSpecs" rc with
      | Some (JObj es) =>
          let es := Dict.set "instanceSize" (JStr target_tier) es in
          let es := Dict.set "nodeCount" (JInt DEFAULT_NODE_COUNT) es in
          size ← py_int current_disk_size;
          let es := Dict.set "diskSizeGB" (JInt size) es in
          let es := Dict.pop "diskIOPS" es in
          let es := Dict.set "ebsVolumeType" (JStr "STANDARD") es in
          Ret (JObj (Dict.set "electableSpecs" (JObj es) rc))
      | Some _ => Raise TypeError
      | None => Raise KeyError
      end
  | _ => Raise TypeError
  end.

(** the spec with the object in [slot] replaced *)
Definition store_region_config (slot : rc_slot) (rc' : json) (spec : json) : json :=
  match slot, spec with
  | SlotFlat, JObj d =>
      match Dict.get "regionConfigs" d with
      | Some (JArr (_ :: rest)) =>
          JObj (Dict.set "regionConfigs" (JArr (rc' :: rest)) d)
      | _ => spec
      end
  | SlotMapped, JObj d =>
      match Dict.get "regionsConfig" d with
      | Some (JObj ((region_name, _) :: rest)) =>
          JObj (Dict.set "regionsConfig" (JObj ((region_name, rc') :: rest)) d)
      | _ => spec
      end
  | _, _ => spec
  end.

(** the payload after [f] has mutated shard [shard_index]'s spec *)
Definition alter_spec (f : json → json) (shard_index : Z) (payload : dict) : dict :=
  match Dict.get "replicationSpecs" payload with
  | Some (JArr specs) =>
      Dict.set "replicationSpecs"
        (JArr (alter f (Z.to_nat shard_index) specs)) payload
  | _ => payload
  end.

Record ShardUpdate : Type := {
  shard_index : Z;
  current_disk_size : json
}.

(** the body of the loop over [shard_updates]; [replication_specs] is the
    list held by the payload (or the fresh empty list of the [.get]
    default) *)
Definition apply_update (target_tier : string) (update_payload : dict)
    (update : ShardUpdate) : res dict :=
  let replication_specs :=
    default (JArr []) (Dict.get "replicationSpecs" update_payload) in
  let shard_index := shard_index update in
  let current_disk_size := current_disk_size update in
  n ← py_len replication_specs;
  if (shard_index <? 0) || (n <=? shard_index) then Ret update_payload
  else
    '(slot, region_config) ← _get_region_config_at (JObj update_payload) shard_index;
    if negb (py_truthy region_config) then Ret update_payload
    else
      has_specs ← py_contains "electableSpecs" region_config;
      if (has_specs : bool) then
        region_config' ← apply_tier_change target_tier current_disk_size
                           region_config;
        Ret (alter_spec (store_region_config slot region_config') shard_index
               update_payload)
      else Ret update_payload.

(** the payload with the (mutated in place) spec list read back *)
Definition store_specs (replication_specs : json) (payload : dict) : dict :=
  if Dict.mem "replicationSpecs" payload
  then Dict.set "replicationSpecs" replication_specs payload
  else payload.

(** lines 391-466 of [update_cluster_shards]: [Ret None] is the early
    [return False] of the first count check; otherwise the payload and
    [original_replication_specs] *)
Definition build_payload (cluster_info : json) (shard_updates : list ShardUpdate)
    (target_tier : string) : res (option (dict * json)) :=
  update_payload ← py_items cluster_info;
  original_replication_specs ← py_get cluster_info "replicationSpecs" (JArr []);
  let update_payload :=
    foldl (λ d field, Dict.pop field d) update_payload read_only_fields in
  let replication_specs :=
    default (JArr []) (Dict.get "replicationSpecs" update_payload) in
  n ← py_len replication_specs;
  n0 ← py_len original_replication_specs;
  if negb (n =? n0) then Ret None
  else
    provider_settings ← py_get cluster_info "providerSettings" (JObj []);
    provider_name ← py_get provider_settings "providerName" (JStr "AWS");
    let update_payload := Dict.pop "autoScaling" update_payload in
    let update_payload := Dict.pop "providerSettings" update_payload in
    let update_payload := Dict.pop "diskSizeGB" update_payload in
    replication_specs ← normalize_specs provider_name replication_specs;
    let update_payload := store_specs replication_specs update_payload in
    update_payload ← res_foldM (apply_update target_tier) update_payload shard_updates;
    Ret (Some (update_payload, original_replication_specs)).

(** ** The config file, the network and the clock *)

(** one [shards] item of the config file; [lastTierUpdate] is whatever
    [shard_config.get('lastTierUpdate', '')] yields *)
Record ShardConfig : Type := {
  shardIndex : option Z;
  lastTierUpdate : json
}.

Record ClusterEntry : Type := {
  clusterName : string;
  shards : list ShardConfig
}.

(** the collaborators outside the script; requests and clock readings are
    numbered in the order they are made, so that two reads of one cluster,
    or of the clock, may differ *)
Record World : Type := {
  fromisoformat : string → option datetime;
  isoformat : Z → string;
  clock : nat → Z;
  (* the body [get_cluster_details] returns, [JNull] when it fails *)
  api_cluster : nat → string → json;
  (* whether the PATCH and its [raise_for_status] go through *)
  api_patch : nat → string → json → bool;
  (* [get_cluster_process_for_shard], [JNull] for [None] *)
  api_primary_process : nat → string → json → Z → json;
  (* [get_cluster_metrics] *)
  api_metrics : nat → string → json → json → Metrics
}.

Record state : Type := {
  st_config : list ClusterEntry;        (* the config file *)
  st_tick : nat;                        (* requests and readings so far *)
  st_patches : list (string * json)     (* PATCH bodies submitted so far *)
}.

Definition M (A : Type) : Type := state → res A * state.

Definition m_ret {A : Type} (a : A) : M A := λ st, (Ret a, st).

Definition m_bind {A B : Type} (f : A → M B) (m : M A) : M B :=
  λ st, match m st with
        | (Ret a, st') => f a st'
        | (Raise e, st') => (Raise e, st')
        end.

#[global] Instance M_mbind : MBind M := @m_bind.
#[global] Instance M_mret : MRet M := @m_ret.

Definition lift {A : Type} (r : res A) : M A := λ st, (r, st).

Definition tick (st : state) : state :=
  {| st_config := st_config st; st_tick := S (st_tick st);
     st_patches := st_patches st |}.

(** the first shard entry with this index gets the stamp ([break]) *)
Fixpoint stamp_first (shard_index : Z) (now_iso : string)
    (shards : list ShardConfig) : list ShardConfig :=
  match shards with
  | [] => []
  | shard :: rest =>
      if bool_decide (shardIndex shard = Some shard_index)
      then {| shardIndex := shardIndex shard; lastTierUpdate := JStr now_iso |} :: rest
      else shard :: stamp_first shard_index now_iso rest
  end.

Definition stamp_entry (cluster_name : string) (shard_index : Z) (now_iso : string)
    (entry : ClusterEntry) : ClusterEntry :=
  if String.eqb (clusterName entry) cluster_name
  then {| clusterName := clusterName entry;
          shards := stamp_first shard_index now_iso (shards entry) |}
  else entry.

(** the config file read, changed and written back *)
Definition write_config (f : list ClusterEntry → list ClusterEntry) : M unit :=
  λ st, (Ret tt,
         {| st_config := f (st_config st); st_tick := st_tick st;
            st_patches := st_patches st |}).

Section Monitor.

Variable w : World.

Definition get_cluster_details (cluster_name : string) : M json :=
  λ st, (Ret (api_cluster w (st_tick st) cluster_name), tick st).

(** the match of a process to the shard, over the process list the API
    returns: taken whole from the oracle *)
Definition get_cluster_process_for_shard (cluster_name : string)
    (cluster_info : json) (shard_index : Z) : M json :=
  λ st, (Ret (api_primary_process w (st_tick st) cluster_name cluster_info
                shard_index),
         tick st).

(** the four measurement series fetched and summarized: taken whole from
    the oracle *)
Definition get_cluster_metrics (cluster_name : string) (cluster_info : json)
    (primary_process : json) : M Metrics :=
  λ st, (Ret (api_metrics w (st_tick st) cluster_name cluster_info primary_process),
         tick st).

(** [datetime.now(timezone.utc)]: every call is a reading of its own *)
Definition now_utc : M Z := λ st, (Ret (clock w (st_tick st)), tick st).

Definition update_config_timestamp (cluster_name : string) (shard_index : Z)
  : M unit :=
  now ← now_utc;
  let now_iso := isoformat w now in
  write_config (fmap (stamp_entry cluster_name shard_index now_iso)).

(** lines 468-486: the final count check and the PATCH *)
Definition submit_payload (cluster_name : string) (update_payload : dict)
    (original_replication_specs : json) : M bool :=
  let final_replication_specs :=
    default (JArr []) (Dict.get "replicationSpecs" update_payload) in
  match py_len final_replication_specs, py_len original_replication_specs with
  | Ret n, Ret n0 =>
      if negb (n =? n0) then mret false
      else
        λ st, (Ret (api_patch w (st_tick st) cluster_name (JObj update_payload)),
               {| st_config := st_config st; st_tick := S (st_tick st);
                  st_patches :=
                    st_patches st ++ [(cluster_name, JObj update_payload)] |})
  | _, _ => mret false
  end.

Definition update_cluster_shards (cluster_name : string)
    (shard_updates : list ShardUpdate) (target_tier scale_up_tier : string)
  : M bool :=
  cluster_info ← get_cluster_details cluster_name;
  if negb (py_truthy cluster_info) then mret false
  else
    match build_payload cluster_info shard_updates target_tier with
    | Ret (Some (update_payload, original_replication_specs)) =>
        submit_payload cluster_name update_payload original_replication_specs
    | Ret None => mret false
    | Raise _ => mret false
    end.

Definition str_of (v : json) : string :=
  match v with JStr s => s | _ => "" end.

Definition check_and_scale_down_shard (cluster_name : string) (shard_index : Z)
    (base_tier scale_up_tier : string) (last_tier_update : json) (min_hours : Z)
    (tier_specs : gmap string TierSpec) : M (option ShardUpdate) :=
  cluster_info ← get_cluster_details cluster_name;
  if negb (py_truthy cluster_info) then mret None
  else
    current_tier ← lift (check_shard_tier cluster_info shard_index);
    if negb (py_truthy current_tier) then mret None
    else if is_str base_tier current_tier then mret None
    else if negb (is_str scale_up_tier current_tier) then mret None
    else if negb (bool_decide (is_Some (tier_specs !! base_tier))) then mret None
    else
      limits ← lift (check_autoscale_limits cluster_info shard_index
                       base_tier scale_up_tier);
      let autoscale_valid : bool := limits.1 in
      if negb autoscale_valid then mret None
      else
        now ← now_utc;
        let is_very_old :=
          (is_timestamp_very_old (fromisoformat w) now last_tier_update
             NEW_SCALE_UP_THRESHOLD_HOURS).1 in
        if is_very_old then
          _ ← update_config_timestamp cluster_name shard_index;
          mret None
        else
          now ← now_utc;
          let can_scale :=
            (check_time_since_update (fromisoformat w) now last_tier_update
               min_hours).1 in
          if negb can_scale then mret None
          else
            primary_process ← get_cluster_process_for_shard cluster_name
                                cluster_info shard_index;
            if negb (py_truthy primary_process) then mret None
            else
              metrics ← get_cluster_metrics cluster_name cluster_info primary_process;
              let safe :=
                (check_safety_conditions base_tier (str_of current_tier) metrics
                   tier_specs).1 in
              if negb safe then mret None
              else
                region_config ← lift (_get_region_config cluster_info shard_index);
                current_disk_size ←
                  lift (if py_truthy region_config then
                          effective_specs ← py_get region_config
                                              "effectiveElectableSpecs" (JObj []);
                          py_get effective_specs "diskSizeGB" (JFloat 80)
                        else Ret (JFloat 80));
                mret (Some {| shard_index := shard_index;
                              current_disk_size := current_disk_size |}).

(** the loop of [monitor_cluster] over [shards_config] *)
Fixpoint evaluate_shards (cluster_name : string) (base_tier scale_up_tier : string)
    (min_hours : Z) (tier_specs : gmap string TierSpec)
    (shards_config : list ShardConfig) (shard_updates : list ShardUpdate)
  : M (list ShardUpdate) :=
  match shards_config with
  | [] => mret shard_updates
  | shard_config :: rest =>
      match shardIndex shard_config with
      | None =>
          evaluate_shards cluster_name base_tier scale_up_tier min_hours tier_specs
            rest shard_updates
      | Some shard_index =>
          result ← check_and_scale_down_shard cluster_name shard_index base_tier
                     scale_up_tier (lastTierUpdate shard_config) min_hours tier_specs;
          evaluate_shards cluster_name base_tier scale_up_tier min_hours tier_specs
            rest (match result with
                  | Some update => shard_updates ++ [update]
                  | None => shard_updates
                  end)
      end
  end.

(** the loop that stamps every shard of the batch *)
Fixpoint stamp_updates (cluster_name : string) (shard_updates : list ShardUpdate)
  : M unit :=
  match shard_updates with
  | [] => mret tt
  | update :: rest =>
      _ ← update_config_timestamp cluster_name (shard_index update);
      stamp_updates cluster_name rest
  end.

Definition monitor_cluster (cluster_name : string) (base_tier scale_up_tier : string)
    (shards_config : list ShardConfig) (min_hours : Z)
    (tier_specs : gmap string TierSpec) : M unit :=
  shard_updates ← evaluate_shards cluster_name base_tier scale_up_tier min_hours
                    tier_specs shards_config [];
  match shard_updates with
  | _ :: _ =>
      ok ← update_cluster_shards cluster_name shard_updates base_tier scale_up_tier;
      if (ok : bool) then stamp_updates cluster_name shard_updates
      else mret tt
  | [] => mret tt
  end.

End Monitor.

(** ** Observations on the safety reasons *)

(** the check a reason comes from, whatever values it prints *)
Inductive check_id : Type :=
| TierSpecsCheck | CpuCheck | MemoryCheck | MemoryBoundCheck | IopsCheck
| ConnectionsCheck.

Definition reason_check (r : reason) : check_id :=
  match r with
  | MissingTierSpecs _ _ => TierSpecsCheck
  | CpuAvgHigh _ => CpuCheck
  | MemoryAvgHigh _ _ _ => MemoryCheck
  | NoMemoryThreshold _ => MemoryBoundCheck
  | IopsAvgHigh _ _ _ => IopsCheck
  | ConnectionsAvgHigh _ _ _ => ConnectionsCheck
  end.

(** no metric mean of [m] exceeds that of [m'] (maxima and deviation are
    free) *)
Definition means_le (m m' : Metrics) : Prop :=
  (cpu_avg m <= cpu_avg m')%Q ∧ (memory_avg_gb m <= memory_avg_gb m')%Q
  ∧ (iops_avg m <= iops_avg m')%Q ∧ (connections_avg m <= connections_avg m')%Q.

Definition demo_tier_specs : gmap string TierSpec :=
  <["M30" := {| ram := 8; connection := 3000; iops := 3000 |}]>
    (<["M40" := {| ram := 16; connection := 6000; iops := 3000 |}]> ∅).

(** a table read from a CSV file without an [iops] column *)
Definition tier_specs_without_iops : gmap string TierSpec :=
  <["M30" := {| ram := 8; connection := 3000; iops := 0 |}]>
    (<["M40" := {| ram := 16; connection := 6000; iops := 0 |}]> ∅).

Definition busy_metrics (cpu : Q) : Metrics := {|
  cpu_max := 90; cpu_avg := cpu; cpu_std := 1;
  memory_max_gb := 12; memory_avg_gb := 10;
  iops_max := 500; iops_avg := 100;
  connections_max := 200; connections_avg := 100
|}.

(** ** Observations on the payload *)

(** what lines 456-460 make of an [electableSpecs] dict, [size] being
    [int(current_disk_size)] *)
Definition changed_specs (target_tier : string) (size : Z) (es : dict) : dict :=
  Dict.set "ebsVolumeType" (JStr "STANDARD")
    (Dict.pop "diskIOPS"
       (Dict.set "diskSizeGB" (JInt size)
          (Dict.set "nodeCount" (JInt DEFAULT_NODE_COUNT)
             (Dict.set "instanceSize" (JStr target_tier) es)))).

Definition demo_autoscaling : json :=
  JObj [("compute", JObj [("enabled", JBool true); ("minInstanceSize", JStr "M30");
                          ("maxInstanceSize", JStr "M50")])].

Definition demo_electable (tier : string) : json :=
  JObj [("instanceSize", JStr tier); ("nodeCount", JInt 3);
        ("diskSizeGB", JFloat (Qmake 1005 10)); ("diskIOPS", JInt 3000);
        ("ebsVolumeType", JStr "PROVISIONED")].

Definition demo_region (tier : string) : json :=
  JObj [("regionName", JStr "US_EAST_1"); ("priority", JInt 7);
        ("providerName", JStr "AWS");
        ("electableSpecs", demo_electable tier);
        ("effectiveElectableSpecs",
           JObj [("instanceSize", JStr tier); ("diskSizeGB", JFloat (Qmake 1005 10))]);
        ("autoScaling", demo_autoscaling)].

(** a two-shard cluster in the flat form: shard 0 scaled up, shard 1 at
    the base tier *)
Definition demo_flat : json :=
  JObj [("name", JStr "c1"); ("id", JStr "abc"); ("clusterType", JStr "SHARDED");
        ("diskSizeGB", JFloat 100);
        ("replicationSpecs",
           JArr [JObj [("id", JStr "s0"); ("zoneName", JStr "Zone 1");
                       ("regionConfigs", JArr [demo_region "M40"])];
                 JObj [("id", JStr "s1"); ("zoneName", JStr "Zone 1");
                       ("regionConfigs", JArr [demo_region "M30"])]])].

(** a one-shard cluster in the legacy mapping form, two regions *)
Definition demo_mapped : json :=
  JObj [("name", JStr "c2"); ("providerSettings", JObj [("providerName", JStr "GCP")]);
        ("replicationSpecs",
           JArr [JObj [("id", JStr "s0"); ("numShards", JInt 1);
                       ("regionsConfig",
                          JObj [("US_EAST_1",
                                 JObj [("electableSpecs", demo_electable "M40");
                                       ("autoScaling", demo_autoscaling)]);
                                ("US_WEST_2",
                                 JObj [("priority", JInt 6);
                                       ("electableSpecs", demo_electable "M40")])])]])].

(** the spec list a payload or a cluster document holds *)
Definition specs_of (d : dict) : json :=
  default (JArr []) (Dict.get "replicationSpecs" d).

(** its entries, in order (anything but a list that gets as far as the
    PATCH is empty) *)
Definition spec_list (replication_specs : json) : list json :=
  match replication_specs with
  | JArr l => l
  | _ => []
  end.

(** [cluster_info.get("providerSettings", {}).get("providerName", "AWS")] *)
Definition provider_name_of (cluster_info : json) : res json :=
  provider_settings ← py_get cluster_info "providerSettings" (JObj []);
  py_get provider_settings "providerName" (JStr "AWS").

(** what one pass of the update loop does to the spec it is aimed at *)
Definition update_spec (target_tier : string) (current_disk_size : json)
    (spec : json) : res json :=
  '(slot, region_config) ← locate_region_config spec;
  if negb (py_truthy region_config) then Ret spec
  else
    has_specs ← py_contains "electableSpecs" region_config;
    if (has_specs : bool) then
      region_config' ← apply_tier_change target_tier current_disk_size region_config;
      Ret (store_region_config slot region_config' spec)
    else Ret spec.

(** the updates aimed at shard [i], applied in turn to its spec *)
Definition updates_at (target_tier : string) (shard_updates : list ShardUpdate)
    (i : nat) (spec : json) : res json :=
  res_foldM (λ spec update,
               if bool_decide (shard_index update = Z.of_nat i)
               then update_spec target_tier (current_disk_size update) spec
               else Ret spec)
    spec shard_updates.

(** entry [i] of the payload, as a function of entry [i] of the document
    read *)
Definition shard_image (provider_name : json) (target_tier : string)
    (shard_updates : list ShardUpdate) (i : nat) (spec : json) : res json :=
  spec0 ← normalize_spec provider_name spec;
  updates_at target_tier shard_updates i spec0.

(** every region config of a shard spec, in either form *)
Definition region_list (spec : json) : list json :=
  match spec with
  | JObj d =>
      match Dict.get "regionConfigs" d with Some (JArr l) => l | _ => [] end
      ++ match Dict.get "regionsConfig" d with Some (JObj m) => m.*2 | _ => [] end
  | _ => []
  end.

Definition autoscaling_of (region_config : json) : option json :=
  match region_config with
  | JObj d => Dict.get "autoScaling" d
  | _ => None
  end.

(** the region-level [autoScaling] settings of a shard, region by region *)
Definition shard_autoscaling (spec : json) : list (option json) :=
  autoscaling_of <$> region_list spec.

(** the [electableSpecs] fields the tier change writes or removes *)
Definition changed_keys : list string :=
  [ "instanceSize"; "nodeCount"; "diskSizeGB"; "diskIOPS"; "ebsVolumeType" ].

(** a dict without the bindings of [keys] *)
Definition without (keys : list string) (d : dict) : dict :=
  filter (λ kv, kv.1 ∉ keys) d.

(** a region config with the changed fields blanked out of its
    [electableSpecs] *)
Definition erase_electable (region_config : json) : json :=
  match region_config with
  | JObj d =>
      match Dict.get "electableSpecs" d with
      | Some (JObj es) =>
          JObj (Dict.set "electableSpecs" (JObj (without changed_keys es)) d)
      | _ => region_config
      end
  | _ => region_config
  end.

(** a shard spec with the changed fields blanked out of its first region
    config: two specs with the same erasure differ in those fields only *)
Definition erase_spec (spec : json) : json :=
  match locate_region_config spec with
  | Ret (slot, region_config) =>
      store_region_config slot (erase_electable region_config) spec
  | Raise _ => spec
  end.

(** the shard specs of the document read, in order *)
Definition read_specs (cluster_info : json) : list json :=
  match cluster_info with
  | JObj d => spec_list (specs_of d)
  | _ => []
  end.

(** the shard specs of a payload, in order *)
Definition payload_specs (payload : dict) : list json :=
  spec_list (specs_of payload).

(** [region_config["effectiveElectableSpecs"]["diskSizeGB"]], if there *)
Definition effective_disk (region_config : json) : option json :=
  match region_config with
  | JObj d =>
      match Dict.get "effectiveElectableSpecs" d with
      | Some (JObj es) => Dict.get "diskSizeGB" es
      | _ => None
      end
  | _ => None
  end.

(** [region_config["electableSpecs"]["diskSizeGB"]], if there *)
Definition electable_disk (region_config : json) : option json :=
  match region_config with
  | JObj d =>
      match Dict.get "electableSpecs" d with
      | Some (JObj es) => Dict.get "diskSizeGB" es
      | _ => None
      end
  | _ => None
  end.

(** ** Observations on tier names and timestamps *)

Definition MICROSECONDS_PER_HOUR : Z := 3600000000.

(** the age of a parsed timestamp, in microseconds *)
Definition age_of (now : Z) (last_update : datetime) : Z :=
  now - dt_instant last_update.

(** the timestamp is missing, cannot be parsed, or is at least [hours]
    hours old at [now] *)
Definition stale (parse : string → option datetime) (now : Z)
    (last_tier_update : json) (hours : Z) : Prop :=
  py_truthy last_tier_update = false
  ∨ _parse_timestamp parse last_tier_update = None
  ∨ ∃ last_update,
      _parse_timestamp parse last_tier_update = Some last_update
      ∧ hours * MICROSECONDS_PER_HOUR ≤ age_of now last_update.

(** the text handed to [int] begins, after white space, with a minus sign *)
Definition minus_signed (s : string) : bool :=
  match strip (list_ascii_of_string s) with
  | "-"%char :: _ => true
  | _ => false
  end.

(** the text [int] is applied to: the tier name less its class letter *)
Definition tier_digits (s : string) : string :=
  if has_class_prefix s then str_tail s else s.

(** ** Observations on a build *)

(** the payload of a build that got as far as the PATCH *)
Definition payload_of (built : res (option (dict * json))) : dict :=
  match built with
  | Ret (Some (payload, _)) => payload
  | _ => []
  end.

(** ** A world for the examples *)

Definition demo_update : ShardUpdate :=
  {| shard_index := 0; current_disk_size := JFloat 80 |}.

(** timestamps of the examples are the decimal count of hours since the
    epoch, read as UTC *)
Definition hours_parser (s : string) : option datetime :=
  (λ h, {| dt_wall := h * MICROSECONDS_PER_HOUR; dt_offset := None |})
    <$> py_int_str s.

Definition hours_printer (now : Z) : string :=
  pretty (now / MICROSECONDS_PER_HOUR).

(** a scaled-up shard whose live specs report no disk size *)
Definition demo_no_disk_region : dict :=
  [("regionName", JStr "US_EAST_1");
   ("electableSpecs", demo_electable "M40");
   ("effectiveElectableSpecs", JObj [("instanceSize", JStr "M40")]);
   ("autoScaling", demo_autoscaling)].

Definition demo_no_disk_payload : dict :=
  [("name", JStr "c3");
   ("replicationSpecs",
      JArr [JObj [("id", JStr "s0");
                  ("regionConfigs", JArr [JObj demo_no_disk_region])]])].

Definition demo_no_disk : json := JObj demo_no_disk_payload.

Definition quiet_metrics : Metrics := {|
  cpu_max := 30; cpu_avg := 20; cpu_std := 2;
  memory_max_gb := 6; memory_avg_gb := 5;
  iops_max := 500; iops_avg := 100;
  connections_max := 200; connections_avg := 100
|}.

(** hour 130 of the epoch; every PATCH answers [patch_ok] *)
Definition demo_world (patch_ok : bool) : World := {|
  fromisoformat := hours_parser;
  isoformat := hours_printer;
  clock := λ _, 130 * MICROSECONDS_PER_HOUR;
  api_cluster := λ _ name,
    if String.eqb name "c1" then demo_flat
    else if String.eqb name "c2" then demo_mapped
    else if String.eqb name "c3" then demo_no_disk
    else JNull;
  api_patch := λ _ _ _, patch_ok;
  api_primary_process := λ _ _ _ _, JObj [("id", JStr "host-00:27017")];
  api_metrics := λ _ _ _ _, quiet_metrics
|}.

Definition demo_config (last : string) : list ClusterEntry :=
  [ {| clusterName := "c1";
       shards := [ {| shardIndex := Some 0; lastTierUpdate := JStr last |};
                   {| shardIndex := Some 1; lastTierUpdate := JStr "" |} ] |};
    {| clusterName := "c3";
       shards := [ {| shardIndex := Some 0; lastTierUpdate := JStr last |} ] |} ].

Definition demo_state (last : string) : state :=
  {| st_config := demo_config last; st_tick := 0; st_patches := [] |}.

(** ** Observations on the config file *)

(** the shard entry that [update_config_timestamp] would stamp *)
Fixpoint first_shard (shard_index : Z) (shards : list ShardConfig)
  : option ShardConfig :=
  match shards with
  | [] => None
  | shard :: rest =>
      if bool_decide (shardIndex shard = Some shard_index) then Some shard
      else first_shard shard_index rest
  end.

(** the recorded [lastTierUpdate] of a shard, one per config entry that
    names the cluster and lists the shard *)
Definition timestamps_of (config : list ClusterEntry) (cluster_name : string)
    (shard_index : Z) : list json :=
  omap (λ entry,
          if String.eqb (clusterName entry) cluster_name
          then lastTierUpdate <$> first_shard shard_index (shards entry)
          else None)
    config.

(** the config after every shard of the batch has been stamped, the clock
    being read at [reading], [reading + 1], ... *)
Fixpoint stamp_batch (w : World) (cluster_name : string)
    (shard_updates : list ShardUpdate) (reading : nat)
    (config : list ClusterEntry) : list ClusterEntry :=
  match shard_updates with
  | [] => config
  | update :: rest =>
      stamp_batch w cluster_name rest (S reading)
        (stamp_entry cluster_name (shard_index update)
           (isoformat w (clock w reading)) <$> config)
  end.

(** the shards of ["c1"] as the config file lists them *)
Definition demo_shards (last : string) : list ShardConfig :=
  [ {| shardIndex := Some 0; lastTierUpdate := JStr last |};
    {| shardIndex := Some 1; lastTierUpdate := JStr "" |} ].

(** a config that lists shard 0 twice, the second time with no timestamp *)
Definition duplicated_shards : list ShardConfig :=
  [ {| shardIndex := Some 0; lastTierUpdate := JStr "120" |};
    {| shardIndex := Some 0; lastTierUpdate := JStr "" |} ].

(** * Properties *)

(** ** Dictionaries *)

Module DictFacts.

Lemma get_set_eq k v d : Dict.get k (Dict.set k v d) = Some v.
Proof.
  induction d as [|[k' v'] d IH]; simpl.
  - by rewrite String.eqb_refl.
  - destruct (String.eqb k k') eqn:E; simpl; rewrite E; [done | exact IH].
Qed.

Lemma get_set_ne k k' v d : k ≠ k' → Dict.get k (Dict.set k' v d) = Dict.get k d.
Proof.
  intros Hne. induction d as [|[k0 v0] d IH]; simpl.
  - apply String.eqb_neq in Hne. by rewrite Hne.
  - destruct (String.eqb k' k0) eqn:E; simpl.
    + apply String.eqb_eq in E. subst k0.
      apply String.eqb_neq in Hne. by rewrite Hne.
    + destruct (String.eqb k k0); [done | exact IH].
Qed.

Lemma get_pop_eq k d : Dict.get k (Dict.pop k d) = None.
Proof.
  induction d as [|[k' v'] d IH]; simpl; [done|].
  destruct (String.eqb k k') eqn:E; simpl; [exact IH | by rewrite E].
Qed.

Lemma get_pop_ne k k' d : k ≠ k' → Dict.get k (Dict.pop k' d) = Dict.get k d.
Proof.
  intros Hne. induction d as [|[k0 v0] d IH]; simpl; [done|].
  destruct (String.eqb k' k0) eqn:E; simpl.
  - apply String.eqb_eq in E. subst k0.
    apply String.eqb_neq in Hne. by rewrite Hne.
  - destruct (String.eqb k k0); [done | exact IH].
Qed.

Lemma set_id k v d : Dict.get k d = Some v → Dict.set k v d = d.
Proof.
  induction d as [|[k' v'] d IH]; simpl; [done|].
  destruct (String.eqb k k') eqn:E.
  - intros [= ->]. done.
  - intros H. by rewrite IH.
Qed.

Lemma set_set k v v' d : Dict.set k v (Dict.set k v' d) = Dict.set k v d.
Proof.
  induction d as [|[k' v0] d IH]; simpl.
  - by rewrite String.eqb_refl.
  - destruct (String.eqb k k') eqn:E; simpl; rewrite E; [done | by rewrite IH].
Qed.

Lemma pop_absent k d : Dict.get k d = None → Dict.pop k d = d.
Proof.
  induction d as [|[k' v'] d IH]; simpl; [done|].
  destruct (String.eqb k k'); [done|]. intros H. by rewrite IH.
Qed.

End DictFacts.

(** ** Tier arithmetic *)

Lemma parse_digits_nonneg cs : ∀ acc b n,
  0 ≤ acc → parse_digits acc b cs = Some n → 0 ≤ n.
Proof.
  induction cs as [|c cs IH]; intros acc b n Hacc; simpl.
  - destruct b; [by intros [= <-] | done].
  - destruct (digit_of c) as [d|] eqn:Hd.
    + apply IH. unfold digit_of in Hd.
      destruct (_ && _) eqn:Hr; [|done]. injection Hd as <-.
      apply andb_true_iff in Hr as [Hlo _]. apply Nat.leb_le in Hlo. lia.
    + destruct (_ && _); [by apply IH | done].
Qed.

Lemma py_int_str_sign s n :
  py_int_str s = Some n → 0 ≤ n ∨ minus_signed s = true.
Proof.
  unfold py_int_str, minus_signed.
  destruct (strip (list_ascii_of_string s)) as [|c cs] eqn:Hs; [done|].
  destruct (Ascii.eqb c "-") eqn:Hm.
  - apply Ascii.eqb_eq in Hm. subst c. by right.
  - intros H. left.
    destruct (Ascii.eqb c "+") eqn:Hp.
    + apply Ascii.eqb_eq in Hp. subst c. by eapply parse_digits_nonneg.
    + assert (parse_digits 0 false (c :: cs) = Some n) as H'.
      { revert H. destruct c as [[] [] [] [] [] [] [] []]; try done. }
      by eapply parse_digits_nonneg.
Qed.

Lemma has_class_prefix_spec s :
  has_class_prefix s = true
  ↔ ∃ c rest, s = String c rest ∧ c ∈ ["M"; "m"; "R"; "r"]%char.
Proof.
  destruct s as [|c rest].
  - split; [done | by intros (? & ? & ? & _)].
  - split.
    + intros H. exists c, rest. split; [done|]. revert H.
      destruct c as [[] [] [] [] [] [] [] []]; vm_compute;
        first [discriminate | intros _; set_solver].
    + intros (c' & rest' & [= <- <-] & Hc).
      rewrite !elem_of_cons, elem_of_nil in Hc.
      unfold has_class_prefix.
      destruct Hc as [->|[->|[->|[->|[]]]]]; simpl; by destruct (str_upper rest).
Qed.

Example tier_M30 : _tier_to_number (JStr "M30") = Ret 30.
Proof. reflexivity. Qed.

Example tier_r200 : _tier_to_number (JStr "r200") = Ret 200.
Proof. reflexivity. Qed.

Example tier_other_letter : _tier_to_number (JStr "X30") = Ret 0.
Proof. reflexivity. Qed.

Example tier_spaces_underscore : _tier_to_number (JStr "M 4_0 ") = Ret 40.
Proof. reflexivity. Qed.

Example tier_not_a_string : _tier_to_number (JInt 30) = Ret 0.
Proof. reflexivity. Qed.



(** ** Staleness and dwell window *)

Lemma hours_threshold (h d : Z) :
  Qle_bool (inject_Z h) (hours_of d) = true ↔ h * MICROSECONDS_PER_HOUR ≤ d.
Proof.
  rewrite Qle_bool_iff. unfold hours_of, MICROSECONDS_PER_HOUR, Qle, Qdiv, Qinv, Qmult.
  simpl. lia.
Qed.

Lemma is_timestamp_very_old_stale parse now last_tier_update threshold_hours :
  (is_timestamp_very_old parse now last_tier_update threshold_hours).1 = true
  ↔ stale parse now last_tier_update threshold_hours.
Proof.
  unfold is_timestamp_very_old, stale, age_of.
  destruct (py_truthy last_tier_update) eqn:Ht; simpl; [|split; auto].
  destruct (_parse_timestamp parse last_tier_update) as [dt|] eqn:Hp; simpl;
    [|split; auto].
  rewrite hours_threshold. split.
  - intros H. right; right. by exists dt.
  - intros [?|[?|(dt' & [= <-] & H)]]; done.
Qed.

Lemma check_time_since_update_stale parse now last_tier_update min_hours :
  (check_time_since_update parse now last_tier_update min_hours).1 = true
  ↔ stale parse now last_tier_update min_hours.
Proof.
  unfold check_time_since_update, stale, age_of.
  destruct (py_truthy last_tier_update) eqn:Ht; simpl; [|split; auto].
  destruct (_parse_timestamp parse last_tier_update) as [dt|] eqn:Hp; simpl;
    [|split; auto].
  rewrite hours_threshold. split.
  - intros H. right; right. by exists dt.
  - intros [?|[?|(dt' & [= <-] & H)]]; done.
Qed.

(** C3: the new-event check holds exactly for a missing or unparseable
    timestamp and for an age of at least 24 hours; the dwell check holds
    exactly for a missing or unparseable timestamp and for an age of at
    least [min_hours] hours, and an age of exactly [min_hours] hours
    satisfies it. *)
Theorem staleness_checks (parse : string → option datetime) (now : Z)
    (last_tier_update : json) (min_hours : Z) :
  ((is_timestamp_very_old parse now last_tier_update
      NEW_SCALE_UP_THRESHOLD_HOURS).1 = true
   ↔ py_truthy last_tier_update = false
     ∨ _parse_timestamp parse last_tier_update = None
     ∨ ∃ last_update, _parse_timestamp parse last_tier_update = Some last_update
                      ∧ 24 * MICROSECONDS_PER_HOUR ≤ age_of now last_update)
  ∧ ((check_time_since_update parse now last_tier_update min_hours).1 = true
     ↔ py_truthy last_tier_update = false
       ∨ _parse_timestamp parse last_tier_update = None
       ∨ ∃ last_update, _parse_timestamp parse last_tier_update = Some last_update
                        ∧ min_hours * MICROSECONDS_PER_HOUR ≤ age_of now last_update)
  ∧ ∀ last_update,
      _parse_timestamp parse last_tier_update = Some last_update →
      age_of now last_update = min_hours * MICROSECONDS_PER_HOUR →
      (check_time_since_update parse now last_tier_update min_hours).1 = true.
Proof.
  split; [apply is_timestamp_very_old_stale|].
  split; [apply check_time_since_update_stale|].
  intros last_update Hparse Hage. apply check_time_since_update_stale.
  right; right. exists last_update. split; [done | lia].
Qed.

Example dwell_boundary_counts :
  check_time_since_update hours_parser (104 * MICROSECONDS_PER_HOUR) (JStr "100") 4
  = (true, Some (4 * MICROSECONDS_PER_HOUR)).
Proof. reflexivity. Qed.

Example dwell_one_microsecond_short :
  (check_time_since_update hours_parser (104 * MICROSECONDS_PER_HOUR - 1)
     (JStr "100") 4).1 = false.
Proof. reflexivity. Qed.

Example new_event_boundary :
  (is_timestamp_very_old hours_parser (124 * MICROSECONDS_PER_HOUR) (JStr "100")
     NEW_SCALE_UP_THRESHOLD_HOURS).1 = true
  ∧ (is_timestamp_very_old hours_parser (124 * MICROSECONDS_PER_HOUR - 1) (JStr "100")
       NEW_SCALE_UP_THRESHOLD_HOURS).1 = false
  ∧ is_timestamp_very_old hours_parser 0 JNull NEW_SCALE_UP_THRESHOLD_HOURS
    = (true, None)
  ∧ is_timestamp_very_old hours_parser 0 (JStr "yesterday")
      NEW_SCALE_UP_THRESHOLD_HOURS = (true, None).
Proof. repeat split. Qed.

(** ** Safety thresholds *)

Lemma Qle_bool_false (x y : Q) : Qle_bool x y = false ↔ (y < x)%Q.
Proof.
  split.
  - intros H. apply Qnot_le_lt. intros Hle. apply Qle_bool_iff in Hle. congruence.
  - intros H. destruct (Qle_bool x y) eqn:E; [|done].
    apply Qle_bool_iff in E. by apply Qlt_not_le in H.
Qed.

Lemma Qle_bool_mono (t x y : Q) :
  Qle_bool t x = true → (x <= y)%Q → Qle_bool t y = true.
Proof.
  rewrite !Qle_bool_iff. intros H1 H2. by eapply Qle_trans.
Qed.

Lemma scaled_pos (x c : Q) : (0 < c)%Q → (0 < x * c)%Q ↔ (0 < x)%Q.
Proof.
  intros Hc. split.
  - intros H. destruct (Qlt_le_dec 0 x) as [|Hle]; [done|].
    exfalso. apply (Qlt_not_le _ _ H).
    rewrite <- (Qmult_0_l c). by apply Qmult_le_compat_r, Qlt_le_weak.
  - intros H. rewrite <- (Qmult_0_l c). by apply Qmult_lt_compat_r.
Qed.

Lemma inject_Z_pos (z : Z) : (0 < inject_Z z)%Q ↔ 0 < z.
Proof. unfold Qlt, inject_Z. simpl. lia. Qed.

(** C5, as stated, fails: with both tiers in a table whose rows carry no
    IOPS limit, the all-zero summary reaches the IOPS threshold and the
    verdict is unsafe. *)
Lemma zero_summary_rejected :
  is_Some (tier_specs_without_iops !! "M30")
  ∧ is_Some (tier_specs_without_iops !! "M40")
  ∧ check_safety_conditions "M30" "M40" _default_metrics tier_specs_without_iops
    = (false, [IopsAvgHigh 0 "M40" (inject_Z 0 * IOPS_THRESHOLD_PERCENT)]).
Proof. split; [by eexists | split; [by eexists | reflexivity]]. Qed.

(** C5, amended: with both tiers in the table, the all-zero summary passes
    every threshold check, with an empty reason list, exactly when the
    current tier's RAM and IOPS limit and the base tier's connection limit
    are positive. *)
Theorem zero_summary_passes (tier_specs : gmap string TierSpec)
    (base_tier current_tier : string) (base_spec current_spec : TierSpec) :
  tier_specs !! base_tier = Some base_spec →
  tier_specs !! current_tier = Some current_spec →
  check_safety_conditions base_tier current_tier _default_metrics tier_specs
    = (true, [])
  ↔ (0 < ram current_spec)%Q ∧ 0 < iops current_spec ∧ 0 < connection base_spec.
Proof.
  intros Hb Hc. unfold check_safety_conditions. rewrite Hb, Hc. simpl.
  replace (Qle_bool CPU_THRESHOLD 0) with false by reflexivity.
  assert (0 < MEMORY_THRESHOLD_PERCENT)%Q as Hm by reflexivity.
  assert (0 < IOPS_THRESHOLD_PERCENT)%Q as Hi by reflexivity.
  assert (0 < CONNECTIONS_THRESHOLD_PERCENT)%Q as Hn by reflexivity.
  destruct (Qle_bool (ram current_spec) 0) eqn:E1; simpl.
  { apply Qle_bool_iff in E1. split.
    - repeat case_match; done.
    - intros [H _]. by apply Qlt_not_le in H. }
  apply Qle_bool_false in E1.
  destruct (Qle_bool (ram current_spec * MEMORY_THRESHOLD_PERCENT) 0) eqn:E2.
  { apply Qle_bool_iff in E2. exfalso. apply (Qle_not_lt _ _ E2).
    by apply scaled_pos. }
  destruct (Qle_bool (inject_Z (iops current_spec) * IOPS_THRESHOLD_PERCENT) 0) eqn:E3;
    simpl.
  { apply Qle_bool_iff in E3. split.
    - repeat case_match; done.
    - intros (_ & H & _). exfalso. apply (Qle_not_lt _ _ E3).
      by apply scaled_pos, inject_Z_pos. }
  apply Qle_bool_false in E3. apply (proj1 (scaled_pos _ _ Hi)) in E3.
  apply (proj1 (inject_Z_pos _)) in E3.
  destruct (Qle_bool (inject_Z (connection base_spec) * CONNECTIONS_THRESHOLD_PERCENT) 0)
    eqn:E4; simpl.
  { apply Qle_bool_iff in E4. split; [done|].
    intros (_ & _ & H). exfalso. apply (Qle_not_lt _ _ E4).
    by apply scaled_pos, inject_Z_pos. }
  apply Qle_bool_false in E4. apply (proj1 (scaled_pos _ _ Hn)) in E4.
  apply (proj1 (inject_Z_pos _)) in E4.
  done.
Qed.

Lemma zero_summary_passes_witness :
  check_safety_conditions "M30" "M40" _default_metrics demo_tier_specs = (true, [])
  ↔ (0 < 16)%Q ∧ 0 < 3000 ∧ 0 < 3000.
Proof.
  exact (zero_summary_passes demo_tier_specs "M30" "M40"
           {| ram := 8; connection := 3000; iops := 3000 |}
           {| ram := 16; connection := 6000; iops := 3000 |}
           eq_refl eq_refl).
Defined.

Ltac mono_case t x y Hle :=
  let E := fresh "E" in
  destruct (Qle_bool t x) eqn:E;
  [ rewrite (Qle_bool_mono t x y E Hle) | destruct (Qle_bool t y) ].

(** C9: when no metric mean goes down (in particular when one of them
    goes up and the rest stay), an unsafe verdict stays unsafe and the
    checks that reported a reason report one again, in the same order. A
    reason prints the metric value, so it is followed by the check it
    comes from. *)
Theorem check_safety_conditions_monotone (base_tier current_tier : string)
    (tier_specs : gmap string TierSpec) (m m' : Metrics) :
  means_le m m' →
  ((check_safety_conditions base_tier current_tier m' tier_specs).1 = true →
   (check_safety_conditions base_tier current_tier m tier_specs).1 = true)
  ∧ (reason_check <$> (check_safety_conditions base_tier current_tier m tier_specs).2)
      `sublist_of`
    (reason_check <$> (check_safety_conditions base_tier current_tier m' tier_specs).2).
Proof.
  intros (Hcpu & Hmem & Hio & Hcn). unfold check_safety_conditions.
  destruct (tier_specs !! base_tier) as [bs|]; [|by split].
  destruct (tier_specs !! current_tier) as [cs|]; [|by split].
  mono_case CPU_THRESHOLD (cpu_avg m) (cpu_avg m') Hcpu;
  (destruct (Qle_bool (ram cs) 0); simpl;
   [| mono_case (ram cs * MEMORY_THRESHOLD_PERCENT)%Q (memory_avg_gb m)
        (memory_avg_gb m') Hmem ]);
  mono_case (inject_Z (iops cs) * IOPS_THRESHOLD_PERCENT)%Q (iops_avg m)
    (iops_avg m') Hio;
  mono_case (inject_Z (connection bs) * CONNECTIONS_THRESHOLD_PERCENT)%Q
    (connections_avg m) (connections_avg m') Hcn;
  simpl; (split; [done | repeat constructor]).
Qed.

Lemma check_safety_conditions_monotone_witness :
  ((check_safety_conditions "M30" "M40" (busy_metrics 50) demo_tier_specs).1 = true →
   (check_safety_conditions "M30" "M40" (busy_metrics 20) demo_tier_specs).1 = true)
  ∧ (reason_check <$>
       (check_safety_conditions "M30" "M40" (busy_metrics 20) demo_tier_specs).2)
      `sublist_of`
    (reason_check <$>
       (check_safety_conditions "M30" "M40" (busy_metrics 50) demo_tier_specs).2).
Proof.
  apply (check_safety_conditions_monotone "M30" "M40" demo_tier_specs
           (busy_metrics 20) (busy_metrics 50)).
  unfold means_le, Qle; simpl. lia.
Defined.

Example busy_reasons :
  check_safety_conditions "M30" "M40" (busy_metrics 50) demo_tier_specs
  = (false, [CpuAvgHigh 50;
             MemoryAvgHigh 10 "M40" (16 * MEMORY_THRESHOLD_PERCENT)])
  ∧ check_safety_conditions "M30" "M40" (busy_metrics 20) demo_tier_specs
    = (false, [MemoryAvgHigh 10 "M40" (16 * MEMORY_THRESHOLD_PERCENT)]).
Proof. split; reflexivity. Qed.

(** ** The tier change on a region config *)

Ltac dict_simpl :=
  repeat first
    [ rewrite DictFacts.get_set_eq
    | rewrite DictFacts.get_pop_eq
    | rewrite DictFacts.get_set_ne by discriminate
    | rewrite DictFacts.get_pop_ne by discriminate ].

Lemma bind_Ret {A B : Type} (a : A) (f : A → res B) : (Ret a ≫= f) = f a.
Proof. reflexivity. Qed.

(** the [electableSpecs] the tier change leaves behind *)
Lemma apply_tier_change_spec target disk rc es size :
  Dict.get "electableSpecs" rc = Some (JObj es) →
  py_int disk = Ret size →
  apply_tier_change target disk (JObj rc)
  = Ret (JObj (Dict.set "electableSpecs" (JObj (changed_specs target size es)) rc)).
Proof.
  intros Hes Hsize. unfold apply_tier_change. rewrite Hes, Hsize. reflexivity.
Qed.

Lemma changed_specs_fixed target size es :
  changed_specs target size (changed_specs target size es)
  = changed_specs target size es.
Proof.
  set (es1 := changed_specs target size es).
  assert (Dict.get "instanceSize" es1 = Some (JStr target)) as H1
    by (unfold es1, changed_specs; dict_simpl; done).
  assert (Dict.get "nodeCount" es1 = Some (JInt DEFAULT_NODE_COUNT)) as H2
    by (unfold es1, changed_specs; dict_simpl; done).
  assert (Dict.get "diskSizeGB" es1 = Some (JInt size)) as H3
    by (unfold es1, changed_specs; dict_simpl; done).
  assert (Dict.get "diskIOPS" es1 = None) as H4
    by (unfold es1, changed_specs; dict_simpl; done).
  assert (Dict.get "ebsVolumeType" es1 = Some (JStr "STANDARD")) as H5
    by (unfold es1, changed_specs; dict_simpl; done).
  clearbody es1. unfold changed_specs.
  rewrite (DictFacts.set_id _ _ _ H1), (DictFacts.set_id _ _ _ H2),
    (DictFacts.set_id _ _ _ H3), (DictFacts.pop_absent _ _ H4).
  by apply DictFacts.set_id.
Qed.

(** C8: the tier change applied to its own result, with the same target
    tier and the same preserved disk size, gives that result again (and a
    change that raises, raises the same way). *)
Theorem apply_tier_change_idempotent (target_tier : string)
    (current_disk_size region_config : json) :
  (region_config' ← apply_tier_change target_tier current_disk_size region_config;
   apply_tier_change target_tier current_disk_size region_config')
  = apply_tier_change target_tier current_disk_size region_config.
Proof.
  destruct region_config as [| | | | | |rc]; try done.
  destruct (Dict.get "electableSpecs" rc) as [v|] eqn:Hes.
  2: { unfold apply_tier_change. by rewrite Hes. }
  destruct v as [| | | | | |es];
    try (unfold apply_tier_change; by rewrite Hes).
  destruct (py_int current_disk_size) as [size|e] eqn:Hsize.
  2: { unfold apply_tier_change. by rewrite Hes, Hsize. }
  rewrite (apply_tier_change_spec _ _ _ _ _ Hes Hsize), bind_Ret.
  erewrite apply_tier_change_spec;
    [| apply DictFacts.get_set_eq | exact Hsize].
  by rewrite changed_specs_fixed, DictFacts.set_set.
Qed.

Example tier_change_on_demo_region :
  apply_tier_change "M30" (JFloat (Qmake 1005 10)) (demo_region "M40")
  = Ret (JObj [("regionName", JStr "US_EAST_1"); ("priority", JInt 7);
               ("providerName", JStr "AWS");
               ("electableSpecs",
                  JObj [("instanceSize", JStr "M30"); ("nodeCount", JInt 3);
                        ("diskSizeGB", JInt 100); ("ebsVolumeType", JStr "STANDARD")]);
               ("effectiveElectableSpecs",
                  JObj [("instanceSize", JStr "M40");
                        ("diskSizeGB", JFloat (Qmake 1005 10))]);
               ("autoScaling", demo_autoscaling)]).
Proof. reflexivity. Qed.

(** ** The region config of a shard as a place in its spec *)

(** what the slot says about the spec *)
Lemma locate_region_config_inv spec slot rc :
  locate_region_config spec = Ret (slot, rc) →
  match slot with
  | SlotFlat =>
      ∃ d rest, spec = JObj d
                ∧ Dict.get "regionConfigs" d = Some (JArr (rc :: rest))
  | SlotMapped =>
      ∃ d name rest,
        spec = JObj d
        ∧ py_truthy (default (JArr []) (Dict.get "regionConfigs" d)) = false
        ∧ Dict.get "regionsConfig" d = Some (JObj ((name, rc) :: rest))
  | SlotFresh =>
      rc = JNull ∨ ∃ c, rc = JStr (String c EmptyString)
  end.
Proof.
  unfold locate_region_config. destruct spec as [| | | | | |d]; try done.
  simpl.
  destruct (py_truthy (default (JArr []) (Dict.get "regionConfigs" d))) eqn:Ht; simpl.
  - destruct (Dict.get "regionConfigs" d) as [rcs|] eqn:Hf; [|done]. simpl in *.
    destruct rcs as [| | | |s|l|m]; simpl; try done.
    + destruct s as [|c s]; [done|]. simpl. intros [= <- <-]. right. by exists c.
    + destruct l as [|x l]; [done|]. simpl. intros [= <- <-]. by exists d, l.
  - destruct (py_truthy (default JNull (Dict.get "regionsConfig" d))) eqn:Hm; simpl.
    + destruct (Dict.get "regionsConfig" d) as [rgs|] eqn:Hg; [|done]. simpl in *.
      destruct rgs as [| | | | | |m]; simpl; try done.
      destruct m as [|[name v] m]; [done|]. simpl. intros [= <- <-].
      by exists d, name, m.
    + intros [= <- <-]. by left.
Qed.

(** reading back what was stored *)
Lemma locate_store spec slot rc rc' :
  locate_region_config spec = Ret (slot, rc) → slot ≠ SlotFresh →
  locate_region_config (store_region_config slot rc' spec) = Ret (slot, rc').
Proof.
  intros Hloc Hslot. apply locate_region_config_inv in Hloc.
  destruct slot; [| |done].
  - destruct Hloc as (d & rest & -> & Hf). simpl. rewrite Hf.
    unfold locate_region_config. simpl. by rewrite DictFacts.get_set_eq.
  - destruct Hloc as (d & name & rest & -> & Hfalsy & Hm). simpl. rewrite Hm.
    unfold locate_region_config. simpl.
    rewrite DictFacts.get_set_ne by discriminate.
    rewrite DictFacts.get_set_eq. simpl. by rewrite Hfalsy.
Qed.

(** storing twice is storing the last *)
Lemma store_store spec slot rc rc' rc'' :
  locate_region_config spec = Ret (slot, rc) →
  store_region_config slot rc'' (store_region_config slot rc' spec)
  = store_region_config slot rc'' spec.
Proof.
  intros Hloc. apply locate_region_config_inv in Hloc.
  destruct slot; [| |by destruct spec].
  - destruct Hloc as (d & rest & -> & Hf). simpl. rewrite Hf. simpl.
    by rewrite DictFacts.get_set_eq, DictFacts.set_set.
  - destruct Hloc as (d & name & rest & -> & _ & Hm). simpl. rewrite Hm. simpl.
    by rewrite DictFacts.get_set_eq, DictFacts.set_set.
Qed.

(** storing what is there changes nothing *)
Lemma store_located spec slot rc :
  locate_region_config spec = Ret (slot, rc) →
  store_region_config slot rc spec = spec.
Proof.
  intros Hloc. apply locate_region_config_inv in Hloc.
  destruct slot; [| |by destruct spec].
  - destruct Hloc as (d & rest & -> & Hf). simpl. rewrite Hf.
    by rewrite DictFacts.set_id.
  - destruct Hloc as (d & name & rest & -> & _ & Hm). simpl. rewrite Hm.
    by rewrite DictFacts.set_id.
Qed.

(** a store leaves the other regions, and the region's own [autoScaling]
    if the new config has the old one, as they were *)
Lemma shard_autoscaling_store spec slot rc rc' :
  locate_region_config spec = Ret (slot, rc) →
  autoscaling_of rc' = autoscaling_of rc →
  shard_autoscaling (store_region_config slot rc' spec) = shard_autoscaling spec.
Proof.
  intros Hloc Hsame. apply locate_region_config_inv in Hloc.
  destruct slot; [| |by destruct spec].
  - destruct Hloc as (d & rest & -> & Hf).
    unfold shard_autoscaling, region_list, store_region_config.
    rewrite Hf. dict_simpl. rewrite !fmap_app, !fmap_cons. by rewrite Hsame.
  - destruct Hloc as (d & name & rest & -> & _ & Hm).
    unfold shard_autoscaling, region_list, store_region_config.
    rewrite Hm. dict_simpl. rewrite !fmap_app. simpl.
    by rewrite Hsame.
Qed.

(** ** What one update does to the spec it is aimed at *)

Lemma apply_tier_change_inv target disk rc rc' :
  apply_tier_change target disk rc = Ret rc' →
  ∃ d es size,
    rc = JObj d ∧ Dict.get "electableSpecs" d = Some (JObj es)
    ∧ py_int disk = Ret size
    ∧ rc' = JObj (Dict.set "electableSpecs" (JObj (changed_specs target size es)) d).
Proof.
  destruct rc as [| | | | | |d]; try done. simpl.
  destruct (Dict.get "electableSpecs" d) as [[| | | | | |es]|] eqn:Hes; try done.
  destruct (py_int disk) as [size|] eqn:Hsize; [|done].
  simpl. intros [= <-]. by exists d, es, size.
Qed.

Lemma update_spec_inv target disk spec spec' :
  update_spec target disk spec = Ret spec' →
  spec' = spec
  ∨ ∃ slot rc rc',
      locate_region_config spec = Ret (slot, rc) ∧ slot ≠ SlotFresh
      ∧ apply_tier_change target disk rc = Ret rc'
      ∧ spec' = store_region_config slot rc' spec.
Proof.
  unfold update_spec.
  destruct (locate_region_config spec) as [[slot rc]|] eqn:Hloc; [|done].
  rewrite bind_Ret.
  destruct (py_truthy rc) eqn:Ht; simpl; [|intros [= <-]; by left].
  destruct (py_contains "electableSpecs" rc) as [[]|] eqn:Hc; simpl;
    [| intros [= <-]; by left | done].
  destruct (apply_tier_change target disk rc) as [rc'|] eqn:Hch; [|done].
  simpl. intros [= <-].
  destruct slot.
  - right. by exists SlotFlat, rc, rc'.
  - right. by exists SlotMapped, rc, rc'.
  - left. by destruct spec.
Qed.

Lemma without_set keys k v d :
  k ∈ keys → without keys (Dict.set k v d) = without keys d.
Proof.
  intros Hk. unfold without. induction d as [|[k' v'] d IH]; simpl.
  - by rewrite filter_cons_False, filter_nil by (simpl; tauto).
  - destruct (String.eqb k k') eqn:E.
    + apply String.eqb_eq in E. subst k'.
      by rewrite !filter_cons_False by (simpl; tauto).
    + rewrite !filter_cons. simpl. by rewrite IH.
Qed.

Lemma without_pop keys k d :
  k ∈ keys → without keys (Dict.pop k d) = without keys d.
Proof.
  intros Hk. unfold without. induction d as [|[k' v'] d IH]; simpl; [done|].
  destruct (String.eqb k k') eqn:E.
  - apply String.eqb_eq in E. subst k'.
    by rewrite filter_cons_False by (simpl; tauto).
  - rewrite !filter_cons. simpl. by rewrite IH.
Qed.

Lemma without_changed_specs target size es :
  without changed_keys (changed_specs target size es) = without changed_keys es.
Proof.
  unfold changed_specs.
  rewrite !without_set, without_pop, !without_set;
    first done; unfold changed_keys; set_solver.
Qed.

Lemma tier_change_frame target disk rc rc' :
  apply_tier_change target disk rc = Ret rc' →
  erase_electable rc' = erase_electable rc ∧ autoscaling_of rc' = autoscaling_of rc.
Proof.
  intros (d & es & size & -> & Hes & _ & ->)%apply_tier_change_inv. split.
  - unfold erase_electable. rewrite Hes, DictFacts.get_set_eq.
    by rewrite DictFacts.set_set, without_changed_specs.
  - simpl. by rewrite DictFacts.get_set_ne by discriminate.
Qed.

Lemma update_spec_frame target disk spec spec' :
  update_spec target disk spec = Ret spec' →
  erase_spec spec' = erase_spec spec
  ∧ shard_autoscaling spec' = shard_autoscaling spec.
Proof.
  intros [->|(slot & rc & rc' & Hloc & Hslot & Hch & ->)]%update_spec_inv; [done|].
  apply tier_change_frame in Hch as [Herase Hauto]. split.
  - unfold erase_spec. rewrite (locate_store _ _ _ _ Hloc Hslot), Hloc.
    by rewrite (store_store _ _ _ _ _ Hloc), Herase.
  - by apply (shard_autoscaling_store _ _ rc).
Qed.

Lemma updates_at_frame target shard_updates i : ∀ spec spec',
  updates_at target shard_updates i spec = Ret spec' →
  erase_spec spec' = erase_spec spec
  ∧ shard_autoscaling spec' = shard_autoscaling spec.
Proof.
  unfold updates_at.
  induction shard_updates as [|u us IH]; intros spec spec'; simpl.
  - by intros [= <-].
  - case_bool_decide.
    + destruct (update_spec target (current_disk_size u) spec) as [spec1|] eqn:Hu;
        [|done].
      rewrite bind_Ret. intros [-> ->]%IH. by apply update_spec_frame in Hu.
    + rewrite bind_Ret. apply IH.
Qed.

Lemma updates_at_untargeted target shard_updates i spec :
  (∀ u, u ∈ shard_updates → shard_index u ≠ Z.of_nat i) →
  updates_at target shard_updates i spec = Ret spec.
Proof.
  unfold updates_at. induction shard_updates as [|u us IH]; intros Hnot; simpl; [done|].
  rewrite bool_decide_eq_false_2 by (apply Hnot; left).
  rewrite bind_Ret. apply IH. intros u' Hu'. apply Hnot. by right.
Qed.

(** ** Normalization of the shard specs *)

Lemma res_mapM_Forall2 {A B : Type} (f : A → res B) (l : list A) : ∀ l',
  res_mapM f l = Ret l' → Forall2 (λ x y, f x = Ret y) l l'.
Proof.
  induction l as [|x l IH]; intros l'; simpl.
  - intros [= <-]. constructor.
  - destruct (f x) as [y|] eqn:Hx; [|done]. rewrite bind_Ret.
    destruct (res_mapM f l) as [ys|]; [|done]. rewrite bind_Ret.
    intros [= <-]. constructor; [done | by apply IH].
Qed.

Lemma normalize_region_autoscaling provider item rc :
  normalize_region provider item = Ret rc →
  autoscaling_of rc = autoscaling_of item.2.
Proof.
  destruct item as [name v]. unfold normalize_region.
  destruct v as [| | | | | |rd]; try done. simpl.
  intros [= <-]. simpl.
  repeat case_match; dict_simpl; simpl; congruence.
Qed.

Lemma pops_keep (fields : list string) k : ∀ d,
  Forall (λ field, k ≠ field) fields →
  Dict.get k (foldl (λ d field, Dict.pop field d) d fields) = Dict.get k d.
Proof.
  induction fields as [|f fields IH]; intros d Hk; simpl; [done|].
  inversion_clear Hk as [|? ? Hf Hrest].
  rewrite IH by done. by apply DictFacts.get_pop_ne.
Qed.

Lemma normalize_spec_autoscaling provider spec spec' :
  normalize_spec provider spec = Ret spec' →
  shard_autoscaling spec' = shard_autoscaling spec.
Proof.
  destruct spec as [| | | | | |d]; try done. unfold normalize_spec.
  set (d1 := Dict.pop "zoneName" (Dict.pop "numShards" (Dict.pop "id" d))).
  assert (Dict.get "regionConfigs" d1 = Dict.get "regionConfigs" d) as Hf
    by (unfold d1; by dict_simpl).
  assert (Dict.get "regionsConfig" d1 = Dict.get "regionsConfig" d) as Hm
    by (unfold d1; by dict_simpl).
  clearbody d1. unfold Dict.mem. rewrite Hf, Hm.
  destruct (Dict.get "regionsConfig" d) as [regions|] eqn:Hregions; simpl.
  2: { intros [= <-]. unfold shard_autoscaling, region_list.
       by rewrite Hf, Hm, Hregions. }
  destruct (Dict.get "regionConfigs" d) as [flat|] eqn:Hflat; simpl.
  { intros [= <-]. unfold shard_autoscaling, region_list.
    by rewrite Hf, Hm, Hregions, Hflat. }
  destruct regions as [| | | | | |m]; try done. simpl.
  destruct (res_mapM (normalize_region provider) m) as [rcs|] eqn:Hrcs; [|done].
  rewrite bind_Ret. intros [= <-].
  unfold shard_autoscaling, region_list. dict_simpl.
  rewrite Hflat, Hregions, app_nil_r. simpl.
  apply res_mapM_Forall2 in Hrcs. clear -Hrcs.
  induction Hrcs as [|item rc m rcs Hrc _ IH]; [done|].
  rewrite !fmap_cons. f_equal; [|exact IH].
  by apply normalize_region_autoscaling in Hrc.
Qed.

Lemma normalize_specs_inv provider rs rs' :
  normalize_specs provider rs = Ret rs' →
  (∃ l l', rs = JArr l ∧ rs' = JArr l'
           ∧ Forall2 (λ s s', normalize_spec provider s = Ret s') l l')
  ∨ (rs' = rs ∧ py_len rs = Ret 0 ∧ spec_list rs = []).
Proof.
  unfold normalize_specs. destruct rs as [| | | |s|l|d]; try done; simpl.
  - destruct s as [|c s]; [|done]. simpl. intros [= <-]. by right.
  - destruct (res_mapM (normalize_spec provider) l) as [l'|] eqn:Hl; [|done].
    rewrite bind_Ret. intros [= <-]. left. exists l, l'.
    by apply res_mapM_Forall2 in Hl.
  - destruct d as [|[k v] d]; [|done]. simpl. intros [= <-]. by right.
Qed.

(** ** The update loop, shard by shard *)

Lemma alter_as_insert {A : Type} (f : A → A) (i : nat) (l : list A) (x : A) :
  l !! i = Some x → alter f i l = <[i := f x]> l.
Proof.
  intros Hx. apply list_eq. intros j. destruct (decide (i = j)) as [<-|Hne].
  - rewrite list_lookup_alter_eq, Hx. simpl.
    by rewrite list_lookup_insert_eq by by eapply lookup_lt_Some.
  - by rewrite list_lookup_alter_ne, list_lookup_insert_ne.
Qed.

(** within range, the loop body is [update_spec] on the spec aimed at *)
Lemma apply_update_in_range target payload update l spec :
  Dict.get "replicationSpecs" payload = Some (JArr l) →
  0 ≤ shard_index update →
  l !! Z.to_nat (shard_index update) = Some spec →
  apply_update target payload update
  = (spec' ← update_spec target (current_disk_size update) spec;
     Ret (Dict.set "replicationSpecs"
            (JArr (<[Z.to_nat (shard_index update) := spec']> l)) payload)).
Proof.
  intros Hget Hnonneg Hspec.
  assert (Z.to_nat (shard_index update) < length l)%nat as Hlt
    by by eapply lookup_lt_Some.
  assert (Dict.set "replicationSpecs"
            (JArr (<[Z.to_nat (shard_index update) := spec]> l)) payload = payload)
    as Hsame by (by rewrite list_insert_id, DictFacts.set_id).
  unfold apply_update, update_spec, _get_region_config_at. simpl.
  rewrite !Hget. simpl.
  replace (shard_index update <? 0) with false by lia.
  replace (Z.of_nat (length l) <=? shard_index update) with false by lia.
  simpl. rewrite Hspec. simpl.
  destruct (locate_region_config spec) as [[slot rc]|]; [|done]. simpl.
  destruct (py_truthy rc); simpl; [|by rewrite Hsame].
  destruct (py_contains "electableSpecs" rc) as [[]|]; simpl;
    [| by rewrite Hsame | done].
  destruct (apply_tier_change target (current_disk_size update) rc) as [rc'|];
    [|done].
  simpl. unfold alter_spec. rewrite Hget. by erewrite alter_as_insert.
Qed.

Lemma apply_update_out_of_range target payload update n :
  py_len (specs_of payload) = Ret n →
  shard_index update < 0 ∨ n ≤ shard_index update →
  apply_update target payload update = Ret payload.
Proof.
  intros Hn Hout. unfold apply_update. fold (specs_of payload). rewrite Hn, bind_Ret.
  replace ((shard_index update <? 0) || (n <=? shard_index update)) with true; [done|].
  symmetry. apply orb_true_iff. lia.
Qed.

(** one pass of the loop, seen from each entry of the spec list *)
Lemma apply_update_list target payload update l payload' :
  Dict.get "replicationSpecs" payload = Some (JArr l) →
  apply_update target payload update = Ret payload' →
  ∃ l', payload' = Dict.set "replicationSpecs" (JArr l') payload
        ∧ length l' = length l
        ∧ ∀ i s, l !! i = Some s →
            ∃ s', l' !! i = Some s'
                  ∧ updates_at target [update] i s = Ret s'.
Proof.
  intros Hget Hrun.
  destruct (decide (0 ≤ shard_index update < Z.of_nat (length l))) as [Hin|Hout].
  - destruct (lookup_lt_is_Some_2 l (Z.to_nat (shard_index update))) as [spec Hspec];
      [lia|].
    rewrite (apply_update_in_range _ _ _ _ _ Hget (proj1 Hin) Hspec) in Hrun.
    destruct (update_spec target (current_disk_size update) spec) as [spec'|] eqn:Hu;
      [|done].
    rewrite bind_Ret in Hrun. injection Hrun as <-.
    exists (<[Z.to_nat (shard_index update) := spec']> l).
    split; [done|]. split; [by rewrite length_insert|].
    intros i s Hs. unfold updates_at. simpl.
    destruct (decide (Z.to_nat (shard_index update) = i)) as [<-|Hne].
    + rewrite bool_decide_eq_true_2 by lia.
      exists spec'. rewrite list_lookup_insert_eq by by eapply lookup_lt_Some.
      split; [done|]. rewrite Hspec in Hs. injection Hs as <-. by rewrite Hu.
    + rewrite bool_decide_eq_false_2 by lia.
      exists s. by rewrite list_lookup_insert_ne.
  - rewrite (apply_update_out_of_range _ _ _ (Z.of_nat (length l))) in Hrun.
    + injection Hrun as <-. exists l.
      split; [by rewrite DictFacts.set_id|]. split; [done|].
      intros i s Hs. exists s. split; [done|]. unfold updates_at. simpl.
      apply lookup_lt_Some in Hs.
      by rewrite bool_decide_eq_false_2 by lia.
    + unfold specs_of. by rewrite Hget.
    + lia.
Qed.

Lemma updates_at_cons target update shard_updates i spec :
  updates_at target (update :: shard_updates) i spec
  = (spec1 ← updates_at target [update] i spec;
     updates_at target shard_updates i spec1).
Proof.
  unfold updates_at. simpl.
  by destruct (if bool_decide _ then _ else _).
Qed.

(** the whole loop, seen from each entry of the spec list *)
Lemma apply_updates_list target shard_updates : ∀ payload l payload',
  Dict.get "replicationSpecs" payload = Some (JArr l) →
  res_foldM (apply_update target) payload shard_updates = Ret payload' →
  ∃ l', payload' = Dict.set "replicationSpecs" (JArr l') payload
        ∧ length l' = length l
        ∧ ∀ i s, l !! i = Some s →
            ∃ s', l' !! i = Some s'
                  ∧ updates_at target shard_updates i s = Ret s'.
Proof.
  induction shard_updates as [|u us IH]; intros payload l payload' Hget; simpl.
  - intros [= <-]. exists l. split; [by rewrite DictFacts.set_id|]. split; [done|].
    intros i s Hs. by exists s.
  - destruct (apply_update target payload u) as [payload1|] eqn:Hu; [|done].
    rewrite bind_Ret. intros Hrest.
    destruct (apply_update_list _ _ _ _ _ Hget Hu) as (l1 & -> & Hlen1 & Hstep).
    destruct (IH _ l1 _ (DictFacts.get_set_eq _ _ _) Hrest) as (l' & -> & Hlen & Hsteps).
    exists l'. split; [by rewrite DictFacts.set_set|]. split; [congruence|].
    intros i s Hs. destruct (Hstep i s Hs) as (s1 & Hs1 & Hone).
    destruct (Hsteps i s1 Hs1) as (s' & Hs' & Hmany).
    exists s'. split; [done|]. by rewrite updates_at_cons, Hone.
Qed.

Lemma apply_updates_empty target shard_updates payload :
  py_len (specs_of payload) = Ret 0 →
  res_foldM (apply_update target) payload shard_updates = Ret payload.
Proof.
  intros Hlen. induction shard_updates as [|u us IH]; simpl; [done|].
  rewrite (apply_update_out_of_range _ _ _ 0 Hlen) by lia. by rewrite bind_Ret.
Qed.

(** ** The payload as a function of the document read *)

Lemma read_only_fields_keep_specs :
  Forall (λ field : string, "replicationSpecs" ≠ field) read_only_fields.
Proof. repeat (constructor; [discriminate|]). constructor. Qed.

Lemma specs_of_set rs payload :
  specs_of (Dict.set "replicationSpecs" rs payload) = rs.
Proof. unfold specs_of. by rewrite DictFacts.get_set_eq. Qed.

Lemma specs_of_store_specs rs payload :
  (Dict.get "replicationSpecs" payload = None → rs = JArr []) →
  specs_of (store_specs rs payload) = rs.
Proof.
  intros Habsent. unfold store_specs, specs_of, Dict.mem.
  destruct (Dict.get "replicationSpecs" payload) eqn:Hget.
  - by rewrite DictFacts.get_set_eq.
  - rewrite Hget. simpl. symmetry. by apply Habsent.
Qed.

(** the payload holds, entry for entry, the normalized spec of the document
    read with the updates aimed at that entry applied *)
Lemma build_payload_inv cluster_info shard_updates target payload original :
  build_payload cluster_info shard_updates target = Ret (Some (payload, original)) →
  ∃ d provider,
    cluster_info = JObj d
    ∧ provider_name_of cluster_info = Ret provider
    ∧ original = specs_of d
    ∧ py_len (specs_of payload) = py_len original
    ∧ length (spec_list (specs_of payload)) = length (spec_list original)
    ∧ ∀ i s, spec_list original !! i = Some s →
        ∃ s0 s', normalize_spec provider s = Ret s0
                 ∧ updates_at target shard_updates i s0 = Ret s'
                 ∧ spec_list (specs_of payload) !! i = Some s'.
Proof.
  unfold build_payload. destruct cluster_info as [| | | | | |d]; try done.
  simpl py_items. rewrite bind_Ret.
  change (py_get (JObj d) "replicationSpecs" (JArr [])) with (Ret (specs_of d)).
  rewrite bind_Ret.
  set (stripped := foldl _ d read_only_fields).
  assert (Dict.get "replicationSpecs" stripped = Dict.get "replicationSpecs" d)
    as Hstripped by apply pops_keep, read_only_fields_keep_specs.
  fold (specs_of d). fold (specs_of stripped).
  assert (specs_of stripped = specs_of d) as ->
    by (unfold specs_of; by rewrite Hstripped).
  destruct (py_len (specs_of d)) as [n|] eqn:Hlen; [|done]. rewrite !bind_Ret.
  rewrite Z.eqb_refl. simpl negb. cbv iota.
  fold (provider_name_of (JObj d)).
  unfold provider_name_of at 1.
  destruct (py_get (JObj d) "providerSettings" (JObj [])) as [settings|] eqn:Hset;
    [|done].
  rewrite bind_Ret.
  destruct (py_get settings "providerName" (JStr "AWS")) as [provider|] eqn:Hprov;
    [|done].
  rewrite bind_Ret.
  set (payload0 := Dict.pop "diskSizeGB" _).
  assert (Dict.get "replicationSpecs" payload0 = Dict.get "replicationSpecs" d)
    as Hpayload0 by (unfold payload0; dict_simpl; exact Hstripped).
  clearbody payload0.
  destruct (normalize_specs provider (specs_of d)) as [rs'|] eqn:Hnorm; [|done].
  rewrite bind_Ret.
  destruct (res_foldM (apply_update target) (store_specs rs' payload0) shard_updates)
    as [payload'|] eqn:Hfold; [|done].
  rewrite bind_Ret. intros [= <- <-].
  exists d, provider. split; [done|].
  split; [by rewrite bind_Ret|].
  split; [done|].
  assert (specs_of (store_specs rs' payload0) = rs') as Hstored.
  { apply specs_of_store_specs. intros Habsent.
    rewrite Hpayload0 in Habsent. unfold specs_of in Hnorm. rewrite Habsent in Hnorm.
    by injection Hnorm as <-. }
  apply normalize_specs_inv in Hnorm as [(l & l0 & Hl & -> & Hall)|(-> & Hzero & Hnil)].
  - destruct (Dict.get "replicationSpecs" payload0) as [v|] eqn:Hkey.
    + assert (Dict.get "replicationSpecs" (store_specs (JArr l0) payload0)
              = Some (JArr l0)) as Hget.
      { unfold store_specs, Dict.mem. rewrite Hkey. apply DictFacts.get_set_eq. }
      destruct (apply_updates_list _ _ _ _ _ Hget Hfold) as (l' & -> & Hlen' & Hsteps).
      rewrite specs_of_set, Hl. simpl.
      pose proof (Forall2_length _ _ _ Hall) as Hlen0.
      split; [f_equal; lia|]. split; [lia|].
      intros i s Hs.
      destruct (Forall2_lookup_l _ _ _ _ _ Hall Hs) as (s0 & Hs0 & Hnorm0).
      destruct (Hsteps i s0 Hs0) as (s' & Hs' & Hupd).
      by exists s0, s'.
    + assert (l = []) as ->.
      { unfold specs_of in Hl. rewrite <- Hpayload0 in Hl. by injection Hl as <-. }
      inversion Hall; subst.
      rewrite apply_updates_empty in Hfold by by rewrite Hstored.
      injection Hfold as <-. rewrite Hstored, Hl. simpl. done.
  - rewrite apply_updates_empty in Hfold by by rewrite Hstored.
    injection Hfold as <-. rewrite Hstored, Hnil. split; [done|]. split; [done|].
    intros i s Hs. by rewrite lookup_nil in Hs.
Qed.

(** ** The PATCH that [update_cluster_shards] submits *)

Lemma m_bind_Ret {A B : Type} (m : M A) (f : A → M B) st a st' :
  m st = (Ret a, st') → (m ≫= f) st = f a st'.
Proof. intros H. unfold mbind, M_mbind, m_bind. by rewrite H. Qed.

(** a failed final count check ends the call before the PATCH *)
Lemma submit_payload_mismatch w cluster_name payload original st :
  py_len (specs_of payload) ≠ py_len original →
  submit_payload w cluster_name payload original st = (Ret false, st).
Proof.
  intros Hne. unfold submit_payload. fold (specs_of payload).
  destruct (py_len (specs_of payload)) as [n|]; [|done].
  destruct (py_len original) as [n0|]; [|done].
  destruct (n =? n0) eqn:E; [|done].
  apply Z.eqb_eq in E. by subst.
Qed.

(** with matching counts the PATCH is submitted, once, with this payload *)
Lemma submit_payload_match w cluster_name payload original st :
  py_len (specs_of payload) = py_len original →
  submit_payload w cluster_name payload original st
  = (Ret false, st)
  ∨ submit_payload w cluster_name payload original st
    = (Ret (api_patch w (st_tick st) cluster_name (JObj payload)),
       {| st_config := st_config st; st_tick := S (st_tick st);
          st_patches := st_patches st ++ [(cluster_name, JObj payload)] |}).
Proof.
  intros Heq. unfold submit_payload. fold (specs_of payload). rewrite Heq.
  destruct (py_len original) as [n0|]; [|by left].
  rewrite Z.eqb_refl. by right.
Qed.

Lemma shard_image_of provider target shard_updates i s s0 s' :
  normalize_spec provider s = Ret s0 →
  updates_at target shard_updates i s0 = Ret s' →
  shard_image provider target shard_updates i s = Ret s'.
Proof. intros H0 H'. unfold shard_image. by rewrite H0, bind_Ret. Qed.

(** C1: whatever document is read, in either region form, the body of a
    submitted PATCH has as many [replicationSpecs] entries as the document,
    and entry [i] is entry [i] of the document, normalized, with the updates
    aimed at [i] applied; a call that submits nothing returns [False]; and
    a failed count check returns [False] before the PATCH. *)
Theorem update_cluster_shards_keeps_shards (w : World) (cluster_name : string)
    (shard_updates : list ShardUpdate) (target_tier scale_up_tier : string)
    (st : state) :
  let cluster_info := api_cluster w (st_tick st) cluster_name in
  let out := update_cluster_shards w cluster_name shard_updates target_tier
               scale_up_tier st in
  (∀ payload original st0,
      py_len (specs_of payload) ≠ py_len original →
      submit_payload w cluster_name payload original st0 = (Ret false, st0))
  ∧ ((out.1 = Ret false ∧ st_patches out.2 = st_patches st)
     ∨ ∃ provider payload,
         provider_name_of cluster_info = Ret provider
         ∧ out.1 = Ret (api_patch w (S (st_tick st)) cluster_name (JObj payload))
         ∧ st_patches out.2 = st_patches st ++ [(cluster_name, JObj payload)]
         ∧ py_len (specs_of payload)
           = py_get cluster_info "replicationSpecs" (JArr []) ≫= py_len
         ∧ length (payload_specs payload) = length (read_specs cluster_info)
         ∧ ∀ i s, read_specs cluster_info !! i = Some s →
             ∃ s', payload_specs payload !! i = Some s'
                   ∧ shard_image provider target_tier shard_updates i s = Ret s').
Proof.
  intros cluster_info out.
  split; [intros payload original st0; apply submit_payload_mismatch|].
  subst out. unfold update_cluster_shards.
  erewrite m_bind_Ret by reflexivity. fold cluster_info.
  destruct (py_truthy cluster_info); cbn [negb]; [|by left].
  destruct (build_payload cluster_info shard_updates target_tier)
    as [[[payload original]|]|] eqn:Hbuild; [| by left | by left].
  apply build_payload_inv in Hbuild
    as (d & provider & Hinfo & Hprov & -> & Hlen & Hcount & Hentries).
  destruct (submit_payload_match w cluster_name payload (specs_of d) (tick st) Hlen)
    as [->| ->]; [by left|].
  right. exists provider, payload. simpl.
  split; [done|]. split; [done|]. split; [done|].
  rewrite Hinfo. simpl. split; [done|]. split; [done|].
  intros i s Hs. destruct (Hentries i s Hs) as (s0 & s' & H0 & H' & Hout).
  exists s'. split; [done|]. by eapply shard_image_of.
Qed.

Example patch_for_flat_form :
  update_cluster_shards (demo_world true) "c1"
    [{| shard_index := 0; current_disk_size := JFloat (Qmake 1005 10) |}]
    "M30" "M40" (demo_state "120")
  = (Ret true,
     {| st_config := demo_config "120"; st_tick := 2;
        st_patches :=
          [("c1",
            JObj [("replicationSpecs",
                   JArr [JObj [("regionConfigs",
                                JArr [JObj [("regionName", JStr "US_EAST_1");
                                            ("priority", JInt 7);
                                            ("providerName", JStr "AWS");
                                            ("electableSpecs",
                                             JObj [("instanceSize", JStr "M30");
                                                   ("nodeCount", JInt 3);
                                                   ("diskSizeGB", JInt 100);
                                                   ("ebsVolumeType", JStr "STANDARD")]);
                                            ("effectiveElectableSpecs",
                                             JObj [("instanceSize", JStr "M40");
                                                   ("diskSizeGB",
                                                    JFloat (Qmake 1005 10))]);
                                            ("autoScaling", demo_autoscaling)]])];
                         JObj [("regionConfigs", JArr [demo_region "M30"])]])])] |}).
Proof. reflexivity. Qed.

Example patch_for_mapping_form :
  update_cluster_shards (demo_world true) "c2"
    [{| shard_index := 0; current_disk_size := JFloat 80 |};
     {| shard_index := 3; current_disk_size := JFloat 80 |}]
    "M30" "M40" (demo_state "120")
  = (Ret true,
     {| st_config := demo_config "120"; st_tick := 2;
        st_patches :=
          [("c2",
            JObj [("replicationSpecs",
                   JArr [JObj [("regionConfigs",
                                JArr [JObj [("priority", JInt 7);
                                            ("regionName", JStr "US_EAST_1");
                                            ("providerName", JStr "GCP");
                                            ("electableSpecs",
                                             JObj [("instanceSize", JStr "M30");
                                                   ("nodeCount", JInt 3);
                                                   ("diskSizeGB", JInt 80);
                                                   ("ebsVolumeType", JStr "STANDARD")]);
                                            ("autoScaling", demo_autoscaling)];
                                      JObj [("priority", JInt 6);
                                            ("regionName", JStr "US_WEST_2");
                                            ("providerName", JStr "GCP");
                                            ("electableSpecs",
                                             demo_electable "M40")]])]])])] |}).
Proof. reflexivity. Qed.

Example no_patch_for_a_malformed_spec :
  update_cluster_shards (demo_world true) "c9" [] "M30" "M40" (demo_state "120")
  = (Ret false, tick (demo_state "120"))
  ∧ build_payload (JObj [("replicationSpecs", JArr [JStr "shard"])]) [] "M30"
    = Raise AttributeError.
Proof. split; reflexivity. Qed.

Example count_mismatch_stops_before_patch :
  submit_payload (demo_world true) "c1"
    [("replicationSpecs", JArr [JObj []])] (JArr [JObj []; JObj []])
    (demo_state "120")
  = (Ret false, demo_state "120").
Proof. reflexivity. Qed.

(** ** The frame of the tier change *)



Example erasure_of_a_changed_shard :
  erase_spec (JObj [("regionConfigs", JArr [demo_region "M40"])])
  = JObj [("regionConfigs",
           JArr [JObj [("regionName", JStr "US_EAST_1"); ("priority", JInt 7);
                       ("providerName", JStr "AWS");
                       ("electableSpecs", JObj []);
                       ("effectiveElectableSpecs",
                          JObj [("instanceSize", JStr "M40");
                                ("diskSizeGB", JFloat (Qmake 1005 10))]);
                       ("autoScaling", demo_autoscaling)]])]
  ∧ shard_autoscaling (JObj [("regionConfigs", JArr [demo_region "M40"])])
    = [Some demo_autoscaling].
Proof. split; reflexivity. Qed.

(** the mapping form keeps its bounds through the flattening *)
Example mapped_autoscaling_as_read :
  read_specs demo_mapped ≫= shard_autoscaling = [Some demo_autoscaling; None]
  ∧ payload_specs (payload_of (build_payload demo_mapped [] "M30"))
      ≫= shard_autoscaling
    = [Some demo_autoscaling; None].
Proof. split; reflexivity. Qed.

(** ** The verdicts of [check_and_scale_down_shard] *)

Ltac unfold_M H :=
  unfold mbind, M_mbind, m_bind, mret, M_mret, m_ret, lift, get_cluster_details,
    get_cluster_process_for_shard, get_cluster_metrics, now_utc in H.

Ltac split_run H :=
  repeat match type of H with
         | context [match ?x with _ => _ end] =>
             destruct x eqn:?; try discriminate H
         end.

Lemma is_str_true k v : is_str k v = true → v = JStr k.
Proof.
  destruct v; try done. simpl. by intros ->%String.eqb_eq.
Qed.

(** an eligible verdict passed every check, and wrote nothing *)
Lemma eligible_inv (w : World) (cluster_name : string)
    (shard_index : Z) (base_tier scale_up_tier : string) (last_tier_update : json)
    (min_hours : Z) (tier_specs : gmap string TierSpec) (st st' : state)
    (update : ShardUpdate) :
  check_and_scale_down_shard w cluster_name shard_index base_tier scale_up_tier
    last_tier_update min_hours tier_specs st = (Ret (Some update), st') →
  let cluster_info := api_cluster w (st_tick st) cluster_name in
  let now := clock w (S (st_tick st)) in
  let later := clock w (S (S (st_tick st))) in
  let primary := api_primary_process w (S (S (S (st_tick st)))) cluster_name
                   cluster_info shard_index in
  let metrics := api_metrics w (S (S (S (S (st_tick st))))) cluster_name
                   cluster_info primary in
  ∃ limits region_config disk,
    py_truthy cluster_info = true
    ∧ check_shard_tier cluster_info shard_index = Ret (JStr scale_up_tier)
    ∧ scale_up_tier ≠ base_tier
    ∧ is_Some (tier_specs !! base_tier)
    ∧ check_autoscale_limits cluster_info shard_index base_tier scale_up_tier
      = Ret (true, limits)
    ∧ (is_timestamp_very_old (fromisoformat w) now last_tier_update
         NEW_SCALE_UP_THRESHOLD_HOURS).1 = false
    ∧ (check_time_since_update (fromisoformat w) later last_tier_update min_hours).1
      = true
    ∧ py_truthy primary = true
    ∧ (check_safety_conditions base_tier scale_up_tier metrics tier_specs).1 = true
    ∧ _get_region_config cluster_info shard_index = Ret region_config
    ∧ (if py_truthy region_config then
         effective_specs ← py_get region_config "effectiveElectableSpecs" (JObj []);
         py_get effective_specs "diskSizeGB" (JFloat 80)
       else Ret (JFloat 80)) = Ret disk
    ∧ update = {| shard_index := shard_index; current_disk_size := disk |}
    ∧ st' = tick (tick (tick (tick (tick st)))).
Proof.
  intros Hrun cluster_info now later primary metrics.
  unfold check_and_scale_down_shard in Hrun. unfold_M Hrun.
  cbn -[check_shard_tier check_autoscale_limits is_timestamp_very_old
        check_time_since_update check_safety_conditions _get_region_config py_get
        py_truthy] in Hrun.
  fold cluster_info now later primary metrics in Hrun.
  split_run Hrun.
  repeat match goal with
         | H : negb _ = false |- _ => apply negb_false_iff in H
         end.
  match goal with H : is_str scale_up_tier _ = true |- _ =>
    apply is_str_true in H; subst end.
  match goal with H : check_autoscale_limits _ _ _ _ = Ret ?p |- _ =>
    destruct p as [valid limits]; simpl in *; subst valid end.
  injection Hrun as <- <-.
  eexists limits, _, _. split_and!; try eassumption; try done.
  - intros ->.
    match goal with H : (_ =? _)%string = false |- _ =>
      by rewrite String.eqb_refl in H end.
  - match goal with H : bool_decide _ = true |- _ =>
      by apply bool_decide_eq_true_1 in H end.
Qed.

(** ** The default disk size *)

Lemma get_region_config_at_list payload l spec shard_index :
  Dict.get "replicationSpecs" payload = Some (JArr l) →
  0 ≤ shard_index →
  l !! Z.to_nat shard_index = Some spec →
  _get_region_config_at (JObj payload) shard_index = locate_region_config spec.
Proof.
  intros Hget Hnonneg Hspec. unfold _get_region_config_at. simpl.
  rewrite Hget. simpl.
  replace (shard_index <? 0) with false by lia.
  apply lookup_lt_Some in Hspec as Hlt.
  replace (Z.of_nat (length l) <=? shard_index) with false by lia.
  by rewrite Hspec.
Qed.

Lemma get_region_config_dict payload shard_index rc :
  _get_region_config (JObj payload) shard_index = Ret (JObj rc) →
  ∃ l spec slot,
    Dict.get "replicationSpecs" payload = Some (JArr l)
    ∧ 0 ≤ shard_index
    ∧ l !! Z.to_nat shard_index = Some spec
    ∧ locate_region_config spec = Ret (slot, JObj rc)
    ∧ slot ≠ SlotFresh.
Proof.
  unfold _get_region_config, _get_region_config_at. simpl.
  destruct (shard_index <? 0) eqn:Hneg; [done|].
  destruct (Dict.get "replicationSpecs" payload) as [rs|] eqn:Hget; simpl.
  2: { by destruct (Z.of_nat 0 <=? shard_index). }
  destruct (py_len rs) as [n|] eqn:Hn; [|done]. simpl.
  destruct (n <=? shard_index) eqn:Hhi; [done|].
  destruct (py_index rs shard_index) as [spec|] eqn:Hspec; [|done]. simpl.
  destruct (locate_region_config spec) as [[slot rc0]|] eqn:Hloc; [|done].
  simpl. intros [= ->].
  destruct rs as [| | | |s|l|m]; try done.
  - simpl in Hspec. destruct (String.get _ s); [|done].
    simpl in Hspec. injection Hspec as <-. done.
  - simpl in Hspec. destruct (l !! Z.to_nat shard_index) as [spec0|] eqn:Hl; [|done].
    simpl in Hspec. injection Hspec as ->.
    apply Z.ltb_ge in Hneg.
    exists l, spec, slot. split; [done|]. split; [lia|]. split; [done|].
    split; [done|]. intros ->.
    apply locate_region_config_inv in Hloc as [?|[c ?]]; done.
Qed.



Example eligible_without_disk_size :
  check_and_scale_down_shard (demo_world true) "c3" 0 "M30" "M40" (JStr "120") 4
    demo_tier_specs (demo_state "120")
  = (Ret (Some {| shard_index := 0; current_disk_size := JFloat 80 |}),
     tick (tick (tick (tick (tick (demo_state "120"))))))
  ∧ payload_specs
      (payload_of (build_payload demo_no_disk
                     [{| shard_index := 0; current_disk_size := JFloat 80 |}] "M30"))
    = [JObj [("regionConfigs",
              JArr [JObj [("regionName", JStr "US_EAST_1");
                          ("electableSpecs",
                             JObj [("instanceSize", JStr "M30"); ("nodeCount", JInt 3);
                                   ("diskSizeGB", JInt 80);
                                   ("ebsVolumeType", JStr "STANDARD")]);
                          ("effectiveElectableSpecs",
                             JObj [("instanceSize", JStr "M40")]);
                          ("autoScaling", demo_autoscaling)]])]].
Proof. split; reflexivity. Qed.

(** ** Timestamps in the config file *)

Lemma first_shard_stamp_first shard_index j now_iso shards :
  first_shard shard_index (stamp_first j now_iso shards)
  = if bool_decide (shard_index = j)
    then (λ shard, {| shardIndex := shardIndex shard;
                      lastTierUpdate := JStr now_iso |})
           <$> first_shard shard_index shards
    else first_shard shard_index shards.
Proof.
  induction shards as [|shard rest IH]; simpl; [by case_bool_decide|].
  destruct (bool_decide (shardIndex shard = Some j)) eqn:Hj; simpl.
  - apply bool_decide_eq_true_1 in Hj.
    destruct (bool_decide (shard_index = j)) eqn:Hi.
    + apply bool_decide_eq_true_1 in Hi. subst j.
      by rewrite !bool_decide_eq_true_2.
    + apply bool_decide_eq_false_1 in Hi.
      rewrite !bool_decide_eq_false_2 by congruence. done.
  - apply bool_decide_eq_false_1 in Hj. rewrite IH.
    destruct (bool_decide (shard_index = j)) eqn:Hi.
    + apply bool_decide_eq_true_1 in Hi. subst j.
      by rewrite bool_decide_eq_false_2.
    + by destruct (bool_decide (shardIndex shard = Some shard_index)).
Qed.

Lemma timestamps_of_cons entry config cluster_name shard_index :
  timestamps_of (entry :: config) cluster_name shard_index
  = option_list (if String.eqb (clusterName entry) cluster_name
                 then lastTierUpdate <$> first_shard shard_index (shards entry)
                 else None)
    ++ timestamps_of config cluster_name shard_index.
Proof.
  unfold timestamps_of. simpl.
  destruct (String.eqb (clusterName entry) cluster_name); [|done].
  by destruct (first_shard shard_index (shards entry)).
Qed.

(** stamping a shard sets its recorded time, wherever it is recorded *)
Lemma timestamps_of_stamped config cluster_name shard_index now_iso :
  timestamps_of (stamp_entry cluster_name shard_index now_iso <$> config)
    cluster_name shard_index
  = (λ _, JStr now_iso) <$> timestamps_of config cluster_name shard_index.
Proof.
  induction config as [|entry config IH]; [done|].
  rewrite fmap_cons, !timestamps_of_cons, IH, fmap_app. f_equal.
  unfold stamp_entry.
  destruct (String.eqb (clusterName entry) cluster_name) eqn:Hname; simpl;
    rewrite Hname; [|done].
  rewrite first_shard_stamp_first, bool_decide_eq_true_2 by done.
  by destruct (first_shard shard_index (shards entry)).
Qed.

(** stamping a shard leaves the recorded times of the others alone *)
Lemma timestamps_of_other config cluster_name shard_index j now_iso :
  shard_index ≠ j →
  timestamps_of (stamp_entry cluster_name j now_iso <$> config)
    cluster_name shard_index
  = timestamps_of config cluster_name shard_index.
Proof.
  intros Hne. induction config as [|entry config IH]; [done|].
  rewrite fmap_cons, !timestamps_of_cons, IH. f_equal.
  unfold stamp_entry.
  destruct (String.eqb (clusterName entry) cluster_name) eqn:Hname; simpl;
    rewrite Hname; [|done].
  by rewrite first_shard_stamp_first, bool_decide_eq_false_2.
Qed.

(** ** New event before dwell *)

Ltac cbn_run :=
  cbn -[check_shard_tier check_autoscale_limits is_timestamp_very_old
        check_time_since_update check_safety_conditions _get_region_config py_get
        py_truthy].

Lemma check_shard_tier_truthy cluster_info shard_index tier :
  check_shard_tier cluster_info shard_index = Ret (JStr tier) →
  py_truthy cluster_info = true.
Proof.
  destruct cluster_info as [| | | | | |d]; try done.
  destruct d as [|kv d]; [|done].
  unfold check_shard_tier, _get_region_config, _get_region_config_at. simpl.
  destruct (shard_index <? 0); simpl; [done|].
  by destruct (Z.of_nat 0 <=? shard_index).
Qed.



(** scenario D: 30 hours old, so both checks would accept the timestamp *)
Example thirty_hours_old :
  (is_timestamp_very_old hours_parser (130 * MICROSECONDS_PER_HOUR) (JStr "100")
     NEW_SCALE_UP_THRESHOLD_HOURS).1 = true
  ∧ (check_time_since_update hours_parser (130 * MICROSECONDS_PER_HOUR) (JStr "100")
       4).1 = true
  ∧ timestamps_of
      (st_config (check_and_scale_down_shard (demo_world true) "c1" 0 "M30" "M40"
                    (JStr "100") 4 demo_tier_specs (demo_state "100")).2) "c1" 0
    = [JStr "130"].
Proof. repeat split. Qed.

(** the scenarios of the specification, on shard 0 of ["c1"] at hour 130 *)
Example scenario_base_tier_no_action :
  check_and_scale_down_shard (demo_world true) "c1" 1 "M30" "M40" (JStr "") 4
    demo_tier_specs (demo_state "120")
  = (Ret None, tick (demo_state "120")).
Proof. reflexivity. Qed.

Example scenario_within_dwell_waits :
  check_and_scale_down_shard (demo_world true) "c1" 0 "M30" "M40" (JStr "128") 4
    demo_tier_specs (demo_state "128")
  = (Ret None, tick (tick (tick (demo_state "128")))).
Proof. reflexivity. Qed.

Example scenario_no_timestamp_records :
  let out := check_and_scale_down_shard (demo_world true) "c1" 0 "M30" "M40" (JStr "") 4
               demo_tier_specs (demo_state "") in
  out.1 = Ret None ∧ timestamps_of (st_config out.2) "c1" 0 = [JStr "130"].
Proof. split; reflexivity. Qed.

Example scenario_eligible :
  check_and_scale_down_shard (demo_world true) "c1" 0 "M30" "M40" (JStr "120") 4
    demo_tier_specs (demo_state "120")
  = (Ret (Some {| shard_index := 0; current_disk_size := JFloat (Qmake 1005 10) |}),
     tick (tick (tick (tick (tick (demo_state "120")))))).
Proof. reflexivity. Qed.

(** ** What a run writes to the config file *)

(** a shard evaluation submits nothing, and writes at most the stamp of
    the shard it found newly scaled up *)
Lemma check_effect (w : World) (cluster_name : string) (shard_index : Z)
    (base_tier scale_up_tier : string) (last_tier_update : json) (min_hours : Z)
    (tier_specs : gmap string TierSpec) (st : state) :
  let out := check_and_scale_down_shard w cluster_name shard_index base_tier
               scale_up_tier last_tier_update min_hours tier_specs st in
  st_patches out.2 = st_patches st
  ∧ (st_config out.2 = st_config st
     ∨ (out.1 = Ret None
        ∧ ∃ now_iso,
            st_config out.2
            = stamp_entry cluster_name shard_index now_iso <$> st_config st)).
Proof.
  intros out. remember out as result eqn:Hrun. subst out.
  unfold check_and_scale_down_shard, update_config_timestamp, write_config in Hrun.
  unfold mbind, M_mbind, m_bind, mret, M_mret, m_ret, lift, get_cluster_details,
    get_cluster_process_for_shard, get_cluster_metrics, now_utc in Hrun.
  cbn -[check_shard_tier check_autoscale_limits is_timestamp_very_old
        check_time_since_update check_safety_conditions _get_region_config py_get
        py_truthy] in Hrun.
  repeat match type of Hrun with
         | context [match ?x with _ => _ end] => destruct x eqn:?
         end;
    subst result; cbn [fst snd st_patches st_config tick];
    (split; [done|]); first [by left | right; split; [done|]; by eexists].
Qed.

Lemma update_cluster_shards_effect (w : World) (cluster_name : string)
    (shard_updates : list ShardUpdate) (target_tier scale_up_tier : string)
    (st : state) :
  let out := update_cluster_shards w cluster_name shard_updates target_tier
               scale_up_tier st in
  st_config out.2 = st_config st ∧ ∃ ok, out.1 = Ret ok.
Proof.
  intros out. subst out. unfold update_cluster_shards.
  erewrite m_bind_Ret by reflexivity.
  destruct (py_truthy _); cbn [negb]; [|by eauto].
  destruct (build_payload _ _ _) as [[[payload original]|]|]; [|by eauto..].
  unfold submit_payload.
  destruct (py_len _) as [n|]; [|by eauto].
  destruct (py_len original) as [n0|]; [|by eauto].
  destruct (negb (n =? n0)); by eauto.
Qed.

(** the loop over the shards: the batch grows by the eligible shards, and
    only shards found newly scaled up are stamped *)
Lemma evaluate_shards_inv (w : World) (cluster_name base_tier scale_up_tier : string)
    (min_hours : Z) (tier_specs : gmap string TierSpec) :
  ∀ shards_config shard_updates st updates st1,
    evaluate_shards w cluster_name base_tier scale_up_tier min_hours tier_specs
      shards_config shard_updates st = (Ret updates, st1) →
    ∃ new stamped,
      updates = shard_updates ++ new
      ∧ (shard_index <$> new) ++ stamped ⊆+ omap shardIndex shards_config
      ∧ st_patches st1 = st_patches st
      ∧ ∀ i, i ∉ stamped →
          timestamps_of (st_config st1) cluster_name i
          = timestamps_of (st_config st) cluster_name i.
Proof.
  induction shards_config as [|shard_config rest IH];
    intros shard_updates st updates st1; simpl.
  - intros [= <- <-]. exists [], []. by rewrite app_nil_r.
  - destruct (shardIndex shard_config) as [j|] eqn:Hj; simpl; [|apply IH].
    unfold mbind, M_mbind, m_bind.
    pose proof (check_effect w cluster_name j base_tier scale_up_tier
                  (lastTierUpdate shard_config) min_hours tier_specs st) as Heff.
    pose proof (eligible_inv w cluster_name j base_tier scale_up_tier
                  (lastTierUpdate shard_config) min_hours tier_specs st) as Hel.
    destruct (check_and_scale_down_shard w cluster_name j base_tier scale_up_tier
                (lastTierUpdate shard_config) min_hours tier_specs st)
      as [[[u|]|e] st2]; [| |done]; simpl in Heff; destruct Heff as [Hpatches Hconfig].
    + destruct (Hel st2 u eq_refl)
        as (_ & _ & disk & _ & _ & _ & _ & _ & _ & _ & _ & _ & _ & _ & -> & ->).
      intros (new & stamped & -> & Hsub & Hp & Hts)%IH.
      exists ({| shard_index := j; current_disk_size := disk |} :: new), stamped.
      split; [by rewrite <- app_assoc|].
      split; [by apply submseteq_skip|]. split; [done|]. done.
    + intros (new & stamped & -> & Hsub & Hp & Hts)%IH.
      destruct Hconfig as [Hsame|(_ & now_iso & Hstamp)].
      * exists new, stamped. split; [done|].
        split; [by apply submseteq_cons|]. split; [congruence|].
        intros i Hi. rewrite Hts by done. by rewrite Hsame.
      * exists new, (j :: stamped). split; [done|].
        split.
        { rewrite <- Permutation_middle. by apply submseteq_skip. }
        split; [congruence|].
        intros i Hi. apply not_elem_of_cons in Hi as [Hne Hi].
        rewrite Hts by done. rewrite Hstamp. by apply timestamps_of_other.
Qed.

Lemma stamp_updates_effect (w : World) (cluster_name : string) :
  ∀ shard_updates st,
    stamp_updates w cluster_name shard_updates st
    = (Ret tt,
       {| st_config := stamp_batch w cluster_name shard_updates (st_tick st)
                         (st_config st);
          st_tick := length shard_updates + st_tick st;
          st_patches := st_patches st |}).
Proof.
  induction shard_updates as [|u us IH]; intros st; [by destruct st|].
  simpl. unfold update_config_timestamp, write_config, now_utc.
  unfold mbind, M_mbind, m_bind. rewrite IH. simpl.
  by rewrite Nat.add_succ_r.
Qed.



(** the same run with a PATCH that goes through: the batch is stamped *)
Example accepted_patch_stamps_the_batch :
  let out := monitor_cluster (demo_world true) "c1" "M30" "M40" (demo_shards "120") 4
               demo_tier_specs (demo_state "120") in
  out.1 = Ret tt
  ∧ timestamps_of (st_config out.2) "c1" 0 = [JStr "130"]
  ∧ timestamps_of (st_config out.2) "c1" 1 = [JStr ""]
  ∧ length (st_patches out.2) = 1%nat.
Proof. repeat split. Qed.

(** a file that lists a shard twice is outside the keyed store: the shard
    can be eligible under one entry and newly scaled up under the other,
    and the second evaluation then records the new event, PATCH or no
    PATCH *)
Example shard_listed_twice :
  let out := monitor_cluster (demo_world false) "c1" "M30" "M40" duplicated_shards 4
               demo_tier_specs (demo_state "120") in
  out.1 = Ret tt
  ∧ timestamps_of (demo_config "120") "c1" 0 = [JStr "120"]
  ∧ timestamps_of (st_config out.2) "c1" 0 = [JStr "130"].
Proof. repeat split. Qed.
